(** * cdo_local_uuid: local_uuid(), configure() and the demo UUID helper

    A shallow embedding of [src/cdo_local_uuid/__init__.py] and of the
    parts of Python's [uuid], [hashlib], [pathlib] and [os] modules that
    the file calls, followed by the properties of the specification.

    Conventions.
    - A Python [str] is a Rocq [string] holding its UTF-8 octets; joining
      and concatenation commute with that encoding, and [str(int)] is
      ASCII.
    - A Python [int] is a [Z].
    - The module globals [DEMO_UUID_BASE] and [DEMO_UUID_COUNTER] are the
      two fields of the record [Globals]; every operation passes them
      explicitly.
    - What the operating system answers ([os.environ], [os.getcwd()],
      [sys.argv], the file system queries of [pathlib], [os.urandom]) is
      an input of the operation that asks. *)

From stdpp Require Import gmap strings list pretty.
From Stdlib Require Import ZArith Lia Ascii.

Local Open Scope Z_scope.

(** ** SHA-1 (hashlib.sha1), on octets as [Z] and 32-bit words as [Z] *)

Module Sha1.

Definition wrap32 (x : Z) : Z := Z.land x 0xffffffff.

Definition add32 (x y : Z) : Z := wrap32 (x + y).

Definition rotl (n x : Z) : Z :=
  wrap32 (Z.lor (Z.shiftl x n) (Z.shiftr x (32 - n))).

(** Big-endian reading of octets. *)
Definition from_bytes (bs : list Z) : Z :=
  fold_left (fun acc b => Z.lor (Z.shiftl acc 8) b) bs 0.

(** The [n] low octets of [x], most significant first. *)
Fixpoint to_bytes (n : nat) (x : Z) : list Z :=
  match n with
  | O => []
  | S k => Z.land (Z.shiftr x (8 * Z.of_nat k)) 0xff :: to_bytes k x
  end.

Definition pad (msg : list Z) : list Z :=
  let len := Z.of_nat (length msg) in
  msg ++ [0x80] ++ repeat 0 (Z.to_nat ((55 - len) mod 64))
      ++ to_bytes 8 (8 * len).

(** Cuts a list into [n] consecutive pieces of [k] elements. *)
Fixpoint chunks {A} (k n : nat) (l : list A) : list (list A) :=
  match n with
  | O => []
  | S m => firstn k l :: chunks k m (skipn k l)
  end.

(** The message schedule, kept most-recent-first while it grows. *)
Fixpoint extend (n : nat) (rw : list Z) : list Z :=
  match n with
  | O => rw
  | S m =>
      let x := Z.lxor (Z.lxor (nth 2 rw 0) (nth 7 rw 0))
                      (Z.lxor (nth 13 rw 0) (nth 15 rw 0)) in
      extend m (rotl 1 x :: rw)
  end.

Definition schedule (block : list Z) : list Z :=
  rev (extend 64 (rev (map from_bytes (chunks 4 16 block)))).

Definition f_t (t : nat) (b c d : Z) : Z :=
  if (t <? 20)%nat then Z.lor (Z.land b c) (Z.land (Z.lxor b 0xffffffff) d)
  else if (t <? 40)%nat then Z.lxor (Z.lxor b c) d
  else if (t <? 60)%nat then
    Z.lor (Z.lor (Z.land b c) (Z.land b d)) (Z.land c d)
  else Z.lxor (Z.lxor b c) d.

Definition k_t (t : nat) : Z :=
  if (t <? 20)%nat then 0x5a827999
  else if (t <? 40)%nat then 0x6ed9eba1
  else if (t <? 60)%nat then 0x8f1bbcdc
  else 0xca62c1d6.

Record regs := Regs { ra : Z; rb : Z; rc : Z; rd : Z; re : Z }.

Definition round (r : regs) (tw : nat * Z) : regs :=
  let (t, w) := tw in
  let temp :=
    add32 (add32 (add32 (add32 (rotl 5 (ra r))
                               (f_t t (rb r) (rc r) (rd r)))
                        (re r))
                 (k_t t))
          w in
  Regs temp (ra r) (rotl 30 (rb r)) (rc r) (rd r).

Definition compress (h : regs) (block : list Z) : regs :=
  let w := schedule block in
  let r := fold_left round (combine (seq 0 80) w) h in
  Regs (add32 (ra h) (ra r)) (add32 (rb h) (rb r)) (add32 (rc h) (rc r))
       (add32 (rd h) (rd r)) (add32 (re h) (re r)).

Definition init : regs :=
  Regs 0x67452301 0xefcdab89 0x98badcfe 0x10325476 0xc3d2e1f0.

(** [hashlib.sha1(msg).digest()]: twenty octets. *)
Definition digest (msg : list Z) : list Z :=
  let p := pad msg in
  let h := fold_left compress (chunks 64 (length p / 64) p) init in
  to_bytes 4 (ra h) ++ to_bytes 4 (rb h) ++ to_bytes 4 (rc h)
    ++ to_bytes 4 (rd h) ++ to_bytes 4 (re h).

End Sha1.

(** ** uuid.UUID, uuid.uuid4, uuid.uuid5 *)

(** [bytes(s, "utf-8")] on a string held as its UTF-8 octets. *)
Definition bytes_of_str (s : string) : list Z :=
  map (fun a => Z.of_N (Ascii.N_of_ascii a)) (String.list_ascii_of_string s).

Definition hexdigit (d : Z) : ascii :=
  Ascii.ascii_of_N (Z.to_N (if d <? 10 then 48 + d else 87 + d)).

(** The [n] low hexadecimal digits of [x], most significant first:
    ['%0nx' % x] for [0 <= x < 16^n]. *)
Fixpoint hex (n : nat) (x : Z) : string :=
  match n with
  | O => EmptyString
  | S k => String (hexdigit (Z.land (Z.shiftr x (4 * Z.of_nat k)) 0xf))
                  (hex k x)
  end.

(** A [uuid.UUID] object is its 128-bit [int] attribute. *)
Record UUID := mkUUID { uuid_int : Z }.

(** [UUID(int=..., version=v)], equally [UUID(bytes=..., version=v)]:
    the variant is set to RFC 4122 and the version number to [v]. *)
Definition UUID_version (n v : Z) : UUID :=
  let n := Z.land n (Z.lnot (Z.shiftl 0xc000 48)) in
  let n := Z.lor n (Z.shiftl 0x8000 48) in
  let n := Z.land n (Z.lnot (Z.shiftl 0xf000 64)) in
  let n := Z.lor n (Z.shiftl v 76) in
  mkUUID n.

(** [str(u)]: the 32 hexadecimal digits, hyphenated 8-4-4-4-12. *)
Definition str_UUID (u : UUID) : string :=
  let h := hex 32 (uuid_int u) in
  String.substring 0 8 h +:+ "-" +:+ String.substring 8 4 h +:+ "-" +:+ String.substring 12 4 h
    +:+ "-" +:+ String.substring 16 4 h +:+ "-" +:+ String.substring 20 12 h.

(** [uuid.NAMESPACE_URL] is [UUID('6ba7b811-9dad-11d1-80b4-00c04fd430c8')]. *)
Definition NAMESPACE_URL : UUID := mkUUID 0x6ba7b8119dad11d180b400c04fd430c8.

(** [uuid.uuid5(namespace, name)]. *)
Definition uuid5 (namespace : UUID) (name : string) : UUID :=
  let hash :=
    Sha1.digest (Sha1.to_bytes 16 (uuid_int namespace) ++ bytes_of_str name) in
  UUID_version (Sha1.from_bytes (firstn 16 hash)) 5.

(** [uuid.uuid4()], given the sixteen octets [os.urandom(16)] returned,
    read big-endian as [rnd]. *)
Definition uuid4 (rnd : Z) : UUID := UUID_version rnd 4.

(** ** Builtins: str.join, str(int) *)

(** [sep.join(parts)]. *)
Fixpoint join (sep : string) (parts : list string) : string :=
  match parts with
  | [] => ""
  | p :: rest =>
      match rest with
      | [] => p
      | _ :: _ => p +:+ sep +:+ join sep rest
      end
  end.

(** [str(n)] for an [int]: decimal digits, ["-"] before a negative one. *)
Definition str_int (n : Z) : string := pretty n.

(** ** pathlib on a POSIX host

    A resolved path ([Path.resolve()]: absolute, no symbolic link, no
    [.] or [..]) is the list of its components below the root. *)

Module Pathlib.

Definition ResolvedPath := list string.

(** [self.relative_to(other)]; [None] is the [ValueError] raised when
    [other] is not a leading part of [self]. *)
Fixpoint relative_to (self other : ResolvedPath) {struct other}
  : option (list string) :=
  match other with
  | [] => Some self
  | o :: other' =>
      match self with
      | [] => None
      | p :: self' =>
          if String.eqb p o then relative_to self' other' else None
      end
  end.

(** [str(p)] for an absolute path. *)
Definition str_absolute (p : ResolvedPath) : string := "/" +:+ join "/" p.

(** [str(p)] for a relative path; the empty one is rendered ["."]. *)
Definition str_relative (p : list string) : string :=
  match p with
  | [] => "."
  | _ :: _ => join "/" p
  end.

End Pathlib.

(** ** What the host answers *)

Record Host := mkHost {
  environ : gmap string string;          (* os.environ *)
  getcwd : string;                       (* os.getcwd() *)
  argv : list string;                    (* sys.argv *)
  path_exists : string -> bool;          (* pathlib.Path(p).exists() *)
  path_is_dir : string -> bool;          (* pathlib.Path(p).is_dir() *)
  path_resolve : string -> Pathlib.ResolvedPath  (* pathlib.Path(p).resolve() *)
}.

(** [os.getenv(name)]. *)
Definition getenv (h : Host) (name : string) : option string :=
  environ h !! name.

(** ** Module state, exceptions, warnings *)

Record Globals := mkGlobals {
  DEMO_UUID_BASE : option string;
  DEMO_UUID_COUNTER : Z
}.

(** The state of the module when it has just been imported. *)
Definition initial : Globals := mkGlobals None 0.

Inductive exn :=
  | ValueError (msg : string)
  | IndexError (msg : string).

Inductive category := FutureWarning | RuntimeWarning.

Record Warning := Warn { warn_category : category; warn_message : string }.

Inductive result (A : Type) :=
  | Return (a : A)
  | Raise (e : exn).
Arguments Return {A} a.
Arguments Raise {A} e.

(** What a call leaves behind: its result, the module globals after it,
    and the warnings it issued ([warnings.warn] under the default filter
    reports and goes on). *)
Record Outcome (A : Type) := mkOutcome {
  value : result A;
  globals : Globals;
  warned : list Warning
}.
Arguments mkOutcome {A} value globals warned.
Arguments value {A} o.
Arguments globals {A} o.
Arguments warned {A} o.

Definition M (A : Type) : Type := Globals -> Outcome A.

Definition ret {A} (a : A) : M A := fun g => mkOutcome (Return a) g [].

Definition raise {A} (e : exn) : M A := fun g => mkOutcome (Raise e) g [].

Definition bind {A B} (m : M A) (k : A -> M B) : M B := fun g =>
  let o := m g in
  match value o with
  | Return a =>
      let o' := k a (globals o) in
      mkOutcome (value o') (globals o') (warned o ++ warned o')
  | Raise e => mkOutcome (Raise e) (globals o) (warned o)
  end.

#[global] Instance M_ret : MRet M := @ret.
#[global] Instance M_bind : MBind M := fun A B k m => bind m k.

Definition warn (c : category) (msg : string) : M unit := fun g =>
  mkOutcome (Return tt) g [Warn c msg].

Definition get_DEMO_UUID_BASE : M (option string) := fun g =>
  mkOutcome (Return (DEMO_UUID_BASE g)) g [].

Definition set_DEMO_UUID_BASE (b : option string) : M unit := fun g =>
  mkOutcome (Return tt) (mkGlobals b (DEMO_UUID_COUNTER g)) [].

Definition get_DEMO_UUID_COUNTER : M Z := fun g =>
  mkOutcome (Return (DEMO_UUID_COUNTER g)) g [].

Definition set_DEMO_UUID_COUNTER (c : Z) : M unit := fun g =>
  mkOutcome (Return tt) (mkGlobals (DEMO_UUID_BASE g) c) [].

(** [sys.argv[0]]. *)
Definition argv_0 (h : Host) : M string :=
  match argv h with
  | [] => raise (IndexError "list index out of range")
  | command :: _ => ret command
  end.

(** ** The module *)

Definition deprecation_message : string :=
  "Environment variable DEMO_UUID_REQUESTING_NONRANDOM is deprecated.  See case_utils.local_uuid._demo_uuid for usage notes on its replacement, CASE_DEMO_NONRANDOM_UUID_BASE.  Proceeding with random UUIDs.".

Definition not_existing_message : string :=
  "Environment variable CASE_DEMO_NONRANDOM_UUID_BASE is expected to refer to an existing directory.  Proceeding with random UUIDs.".

Definition not_directory_message : string :=
  "Environment variable CASE_DEMO_NONRANDOM_UUID_BASE is expected to refer to a directory.  Proceeding with random UUIDs.".

(** The component for the present working directory. *)
Definition srcdir_part (h : Host) (env_base_dir_name : string) : string :=
  let base_dir_resolved_path := path_resolve h env_base_dir_name in
  let srcdir_resolved_path := path_resolve h (getcwd h) in
  match Pathlib.relative_to srcdir_resolved_path base_dir_resolved_path with
  | Some srcdir_relative_path => Pathlib.str_relative srcdir_relative_path
  | None => Pathlib.str_absolute srcdir_resolved_path
  end.

(** The component for the command of the argument vector. *)
Definition command_part (h : Host) : M string :=
  match getenv h "VIRTUAL_ENV" with
  | None => argv_0 h
  | Some env_venv_name =>
      command ← argv_0 h;
      let command_resolved_path := path_resolve h command in
      let venv_resolved_path := path_resolve h env_venv_name in
      match Pathlib.relative_to command_resolved_path venv_resolved_path with
      | Some command_relative_path =>
          ret (Pathlib.str_relative command_relative_path)
      | None => ret (Pathlib.str_absolute command_resolved_path)
      end
  end.

Definition configure (h : Host) : M unit :=
  if bool_decide (getenv h "DEMO_UUID_REQUESTING_NONRANDOM"
                  = Some "NONRANDOM_REQUESTED")
  then warn FutureWarning deprecation_message
  else
    match getenv h "CASE_DEMO_NONRANDOM_UUID_BASE" with
    | None => ret tt
    | Some env_base_dir_name =>
        if negb (path_exists h env_base_dir_name)
        then warn RuntimeWarning not_existing_message
        else if negb (path_is_dir h env_base_dir_name)
        then warn RuntimeWarning not_directory_message
        else
          let demo_uuid_base_parts := ["example.org"] in
          let demo_uuid_base_parts :=
            demo_uuid_base_parts ++ [srcdir_part h env_base_dir_name] in
          command ← command_part h;
          let demo_uuid_base_parts := demo_uuid_base_parts ++ [command] in
          let demo_uuid_base_parts :=
            if (1 <? length (argv h))%nat
            then demo_uuid_base_parts ++ skipn 1 (argv h)
            else demo_uuid_base_parts in
          set_DEMO_UUID_BASE (Some (join "/" demo_uuid_base_parts))
    end.

Definition _demo_uuid (h : Host) : M string :=
  match getenv h "CASE_DEMO_NONRANDOM_UUID_BASE" with
  | None =>
      raise (ValueError
        "demo_uuid() called without CASE_DEMO_NONRANDOM_UUID_BASE in environment.")
  | Some _ =>
      base ← get_DEMO_UUID_BASE;
      match base with
      | None => raise (ValueError "demo_uuid() called with DEMO_UUID_BASE unset.")
      | Some base =>
          let parts := [base] in
          counter ← get_DEMO_UUID_COUNTER;
          set_DEMO_UUID_COUNTER (counter + 1);;
          counter ← get_DEMO_UUID_COUNTER;
          let parts := parts ++ [str_int counter] in
          ret (str_UUID (uuid5 NAMESPACE_URL (join "/" parts)))
      end
  end.

(** [rnd] is what [os.urandom(16)] returns if this call asks for it. *)
Definition local_uuid (h : Host) (rnd : Z) : M string :=
  base ← get_DEMO_UUID_BASE;
  match base with
  | None => ret (str_UUID (uuid4 rnd))
  | Some _ => _demo_uuid h
  end.

(** Successive calls, each on the globals the one before left, each
    answered by the host of its moment. *)
Fixpoint successively {A} (calls : list (M A)) (g : Globals)
  : list (result A) * Globals :=
  match calls with
  | [] => ([], g)
  | call :: rest =>
      let o := call g in
      let (rs, g') := successively rest (globals o) in
      (value o :: rs, g')
  end.

(** ** Sample hosts *)

Definition BASE_VARIABLE : string := "CASE_DEMO_NONRANDOM_UUID_BASE".

Definition demo_resolve (p : string) : Pathlib.ResolvedPath :=
  if String.eqb p "/tmp/work" then ["tmp"; "work"]
  else if String.eqb p "/tmp/work/sub" then ["tmp"; "work"; "sub"]
  else if String.eqb p "/usr/bin/tool" then ["usr"; "bin"; "tool"]
  else if String.eqb p "/usr" then ["usr"]
  else [].

(** Base directory [/tmp/work], working directory [/tmp/work/sub],
    command line [/usr/bin/tool run]. *)
Definition demo_host : Host :=
  mkHost {[ BASE_VARIABLE := "/tmp/work" ]}
         "/tmp/work/sub" ["/usr/bin/tool"; "run"]
         (fun p => String.eqb p "/tmp/work")
         (fun p => String.eqb p "/tmp/work")
         demo_resolve.

(** The same host with another environment. *)
Definition with_environ (env : gmap string string) (h : Host) : Host :=
  mkHost env (getcwd h) (argv h) (path_exists h) (path_is_dir h)
         (path_resolve h).

Definition bare_host : Host := with_environ ∅ demo_host.

(** ** Names and identifiers of the deterministic path *)

(** The identifier of the call that moves the counter to [counter]. *)
Definition demo_name (base : string) (counter : Z) : string :=
  base +:+ "/" +:+ str_int counter.

Definition demo_identifier (base : string) (counter : Z) : string :=
  str_UUID (uuid5 NAMESPACE_URL (demo_name base counter)).


(** [u.version]. *)
Definition version (u : UUID) : Z := Z.land (Z.shiftr (uuid_int u) 76) 0xf.

(** ** Runs of the public entry point *)

(** One call of [local_uuid()] per element: the host as it is at that
    call, and the octets [os.urandom] has for it. *)
Definition generation_calls (calls : list (Host * Z)) : list (M string) :=
  map (fun hr => local_uuid hr.1 hr.2) calls.

(** The environment still names the base directory. *)
Definition armed (h : Host) : Prop := is_Some (getenv h BASE_VARIABLE).

(** The deprecated variable carries its sentinel value. *)
Definition deprecated_request (h : Host) : Prop :=
  getenv h "DEMO_UUID_REQUESTING_NONRANDOM" = Some "NONRANDOM_REQUESTED".

(** ** The base string in the words of the specification *)

Module Spec.

(** [a] is an ancestor of [p]: the components of [a] begin those of [p].
    As for [relative_to], a directory is an ancestor of itself. *)
Definition is_ancestor (a p : Pathlib.ResolvedPath) : bool :=
  bool_decide (a `prefix_of` p).

(** [p] rendered relative to [a] if [a] is an ancestor of [p], and as the
    absolute path otherwise. *)
Definition relative_if_below (a p : Pathlib.ResolvedPath) : string :=
  if is_ancestor a p
  then Pathlib.str_relative (drop (length a) p)
  else Pathlib.str_absolute p.

(** b. The working directory, against the base directory [d]. *)
Definition working_directory_component (h : Host) (d : string) : string :=
  relative_if_below (path_resolve h d) (path_resolve h (getcwd h)).

(** c. The command, against the virtual environment if there is one. *)
Definition command_component (h : Host) (command : string) : string :=
  match getenv h "VIRTUAL_ENV" with
  | Some venv =>
      relative_if_below (path_resolve h venv) (path_resolve h command)
  | None => command
  end.

(** a, b, c, then d: every further argument, joined by ["/"]. *)
Definition base_string (h : Host) (d command : string) (args : list string)
  : string :=
  join "/" ("example.org"
            :: working_directory_component h d
            :: command_component h command
            :: args).

End Spec.

(** ** More sample hosts *)

(** [demo_host] run from inside the virtual environment [/usr]. *)
Definition venv_host : Host :=
  with_environ {[ BASE_VARIABLE := "/tmp/work"; "VIRTUAL_ENV" := "/usr" ]}
               demo_host.

(** [demo_host] with the deprecated request added to a valid setting. *)
Definition deprecated_host : Host :=
  with_environ {[ BASE_VARIABLE := "/tmp/work";
                  "DEMO_UUID_REQUESTING_NONRANDOM" := "NONRANDOM_REQUESTED" ]}
               demo_host.


(** The base variable names something that does not exist. *)
Definition missing_dir_host : Host :=
  with_environ {[ BASE_VARIABLE := "/nonexistent" ]} demo_host.

(** The variable names no directory that exists. *)
Definition not_a_directory (h : Host) (d : string) : Prop :=
  path_exists h d = false \/ path_is_dir h d = false.

(** The results of [n] successive calls of [local_uuid()] on a host that
    does not change. *)
Definition generated (h : Host) (n : nat) (g : Globals)
  : list (result string) :=
  (successively (generation_calls (replicate n (h, 0))) g).1.

(** The names hashed by [n] successive calls from counter [c]. *)
Definition demo_names (base : string) (c : Z) (n : nat) : list string :=
  map (fun i => demo_name base (c + i)) (seqZ 1 (Z.of_nat n)).

(** ** The textual form of a UUID *)

Definition is_hex_lower (a : ascii) : bool :=
  let n := Ascii.N_of_ascii a in
  ((48 <=? n) && (n <=? 57) || (97 <=? n) && (n <=? 102))%N.

(** Reads [n] lowercase hexadecimal digits off the front of [s]. *)
Fixpoint hex_run (n : nat) (s : string) : option string :=
  match n with
  | O => Some s
  | S k =>
      match s with
      | String a rest => if is_hex_lower a then hex_run k rest else None
      | EmptyString => None
      end
  end.

(** Reads one hyphen. *)
Definition hyphen (s : string) : option string :=
  match s with
  | String a rest => if Ascii.eqb a "-" then Some rest else None
  | EmptyString => None
  end.

Inductive piece := digits (n : nat) | dash.

(** Reads the pieces in turn; what is left of [s], if they were all there. *)
Fixpoint read (ps : list piece) (s : string) : option string :=
  match ps with
  | [] => Some s
  | p :: ps' =>
      match (match p with digits n => hex_run n s | dash => hyphen s end) with
      | Some rest => read ps' rest
      | None => None
      end
  end.

(** [xxxxxxxx-xxxx-xxxx-xxxx-xxxxxxxxxxxx], each [x] a lowercase
    hexadecimal digit, and nothing after. *)
Definition canonical (s : string) : bool :=
  bool_decide
    (read [digits 8; dash; digits 4; dash; digits 4; dash; digits 4; dash;
           digits 12] s
     = Some "").

(** ** Results and hosts, for the properties of runs *)


(** The same host started with another argument vector. *)
Definition with_argv (args : list string) (h : Host) : Host :=
  mkHost (environ h) (getcwd h) args (path_exists h) (path_is_dir h)
         (path_resolve h).

(** The base variable names a directory that exists. *)
Definition names_directory (h : Host) (d : string) : Prop :=
  getenv h BASE_VARIABLE = Some d
  /\ path_exists h d = true /\ path_is_dir h d = true.

(** The variable is present, but empty. *)
Definition empty_value_host : Host :=
  with_environ {[ BASE_VARIABLE := "" ]} demo_host.

(** [demo_host] with more in its environment. *)
Definition busy_host : Host :=
  with_environ {[ BASE_VARIABLE := "/tmp/work"; "HOME" := "/home/user";
                  "DEMO_UUID_REQUESTING_NONRANDOM" := "yes" ]}
               demo_host.

(** [demo_host] run from the base directory itself. *)
Definition top_host : Host :=
  mkHost (environ demo_host) "/tmp/work" (argv demo_host)
         (path_exists demo_host) (path_is_dir demo_host)
         (path_resolve demo_host).

(** [demo_host] run from outside the base directory. *)
Definition outside_host : Host :=
  mkHost (environ demo_host) "/usr" (argv demo_host)
         (path_exists demo_host) (path_is_dir demo_host)
         (path_resolve demo_host).

(** The character [a] occurs in [s]. *)
Fixpoint has_char (a : ascii) (s : string) : bool :=
  match s with
  | EmptyString => false
  | String b rest => Ascii.eqb a b || has_char a rest
  end.

(** [venv_host] on a file system that also knows [bin/../bin/tool]. *)
Definition dotted_host : Host :=
  mkHost (environ venv_host) (getcwd venv_host) (argv venv_host)
         (path_exists venv_host) (path_is_dir venv_host)
         (fun p => if String.eqb p "bin/../bin/tool"
                   then ["usr"; "bin"; "tool"]
                   else demo_resolve p).

(** [demo_host] on a file system that also knows [/tmp/work/]. *)
Definition slash_host : Host :=
  mkHost (environ demo_host) (getcwd demo_host) (argv demo_host)
         (fun p => String.eqb p "/tmp/work" || String.eqb p "/tmp/work/")
         (fun p => String.eqb p "/tmp/work" || String.eqb p "/tmp/work/")
         (fun p => if String.eqb p "/tmp/work/" then ["tmp"; "work"]
                   else demo_resolve p).
(** * Properties *)

(** ** Test vectors of the library functions *)

Example sha1_abc :
  Sha1.digest (bytes_of_str "abc")
  = Sha1.to_bytes 20 0xa9993e364706816aba3e25717850c26c9cd0d89d.
Proof. vm_compute. reflexivity. Qed.

Example sha1_two_blocks :
  Sha1.digest (repeat 97 70)
  = Sha1.to_bytes 20 0xed6c69d9e8b4373af86303dfaa3528dfbc129902.
Proof. vm_compute. reflexivity. Qed.

Example str_NAMESPACE_URL :
  str_UUID NAMESPACE_URL = "6ba7b811-9dad-11d1-80b4-00c04fd430c8".
Proof. vm_compute. reflexivity. Qed.

Example uuid5_tool_1 :
  str_UUID (uuid5 NAMESPACE_URL "example.org/./tool/1")
  = "7bf64aec-fdd1-550a-8317-9b1ea10455b0".
Proof. vm_compute. reflexivity. Qed.

Example uuid5_long :
  str_UUID (uuid5 NAMESPACE_URL
    "example.org/aaaaaaaaaaaaaaaaaaaaaaaaaaaaaaaaaaaaaaaaaaaaaaaaaaaaaaaaaaaaaaaaaaaaaaaaaaaaaaaaaaaaaaaaaaaaaaaaaaaa/12")
  = "47dd8420-beb5-5762-a87d-6020670c9b77".
Proof. vm_compute. reflexivity. Qed.

Example uuid4_sample :
  str_UUID (uuid4 0x0123456789abcdef0123456789abcdef)
  = "01234567-89ab-4def-8123-456789abcdef".
Proof. vm_compute. reflexivity. Qed.

Example uuid4_extremes :
  str_UUID (uuid4 0) = "00000000-0000-4000-8000-000000000000"
  /\ str_UUID (uuid4 (2 ^ 128 - 1)) = "ffffffff-ffff-4fff-bfff-ffffffffffff".
Proof. split; vm_compute; reflexivity. Qed.

(** ** The deterministic helper: evaluation *)

Lemma demo_uuid_armed (h : Host) (base : string) (c : Z) :
  is_Some (getenv h BASE_VARIABLE) ->
  _demo_uuid h (mkGlobals (Some base) c)
  = mkOutcome (Return (demo_identifier base (c + 1)))
              (mkGlobals (Some base) (c + 1)) [].
Proof.
  intros [d Hd]. unfold _demo_uuid. fold BASE_VARIABLE. rewrite Hd.
  reflexivity.
Qed.

Lemma demo_uuid_no_variable (h : Host) (g : Globals) :
  getenv h BASE_VARIABLE = None ->
  _demo_uuid h g
  = mkOutcome
      (Raise (ValueError
         "demo_uuid() called without CASE_DEMO_NONRANDOM_UUID_BASE in environment."))
      g [].
Proof.
  intros Hd. unfold _demo_uuid. fold BASE_VARIABLE. rewrite Hd. reflexivity.
Qed.

Lemma demo_uuid_no_base (h : Host) (g : Globals) :
  is_Some (getenv h BASE_VARIABLE) ->
  DEMO_UUID_BASE g = None ->
  _demo_uuid h g
  = mkOutcome
      (Raise (ValueError "demo_uuid() called with DEMO_UUID_BASE unset."))
      g [].
Proof.
  intros [d Hd] Hb. unfold _demo_uuid. fold BASE_VARIABLE. rewrite Hd.
  destruct g as [b c]. simpl in Hb. subst b. reflexivity.
Qed.

Lemma local_uuid_unset (h : Host) (rnd c : Z) :
  local_uuid h rnd (mkGlobals None c)
  = mkOutcome (Return (str_UUID (uuid4 rnd))) (mkGlobals None c) [].
Proof. reflexivity. Qed.

Lemma local_uuid_set (h : Host) (rnd : Z) (base : string) (c : Z) :
  local_uuid h rnd (mkGlobals (Some base) c)
  = _demo_uuid h (mkGlobals (Some base) c).
Proof.
  unfold local_uuid, mbind, M_bind, bind. simpl.
  destruct (_demo_uuid h (mkGlobals (Some base) c)) as [v g' ws].
  simpl. destruct v; reflexivity.
Qed.

(** C2. [_demo_uuid] called while CASE_DEMO_NONRANDOM_UUID_BASE is absent
    from the environment, or while DEMO_UUID_BASE is None, raises a
    ValueError carrying a message: it returns no identifier, random or
    not. *)
Theorem demo_uuid_rejects (h : Host) (g : Globals) :
  getenv h BASE_VARIABLE = None \/ DEMO_UUID_BASE g = None ->
  exists msg : string,
    value (_demo_uuid h g) = Raise (ValueError msg) /\ msg <> ""
    /\ forall identifier, value (_demo_uuid h g) <> Return identifier.
Proof.
  intros Hc.
  destruct (getenv h BASE_VARIABLE) as [d|] eqn:Hd.
  - destruct Hc as [Hc|Hc]; [discriminate|].
    rewrite demo_uuid_no_base by (rewrite ?Hd; eauto).
    eexists; split; [reflexivity|]. split; [discriminate|]. discriminate.
  - rewrite demo_uuid_no_variable by assumption.
    eexists; split; [reflexivity|]. split; [discriminate|]. discriminate.
Qed.

Lemma demo_uuid_rejects_witness :
  (getenv bare_host BASE_VARIABLE = None
   \/ DEMO_UUID_BASE (mkGlobals (Some "example.org") 3) = None)
  /\ exists msg : string,
      value (_demo_uuid bare_host (mkGlobals (Some "example.org") 3))
      = Raise (ValueError msg) /\ msg <> ""
      /\ forall identifier,
          value (_demo_uuid bare_host (mkGlobals (Some "example.org") 3))
          <> Return identifier.
Proof.
  assert (H : getenv bare_host BASE_VARIABLE = None
              \/ DEMO_UUID_BASE (mkGlobals (Some "example.org") 3) = None)
    by (left; vm_compute; reflexivity).
  split; [exact H|].
  exact (demo_uuid_rejects bare_host (mkGlobals (Some "example.org") 3) H).
Defined.

(** C10. A call of [_demo_uuid] that raises leaves the globals exactly as
    they were, the counter included; and it raises only for one of its two
    checks, both made before the counter is touched. *)
Theorem demo_uuid_raise_frames (h : Host) (g : Globals) (e : exn) :
  value (_demo_uuid h g) = Raise e ->
  globals (_demo_uuid h g) = g
  /\ DEMO_UUID_COUNTER (globals (_demo_uuid h g)) = DEMO_UUID_COUNTER g
  /\ (getenv h BASE_VARIABLE = None \/ DEMO_UUID_BASE g = None).
Proof.
  destruct (getenv h BASE_VARIABLE) as [d|] eqn:Hd.
  - destruct g as [[base|] c].
    + rewrite demo_uuid_armed by (rewrite Hd; eauto). discriminate.
    + rewrite demo_uuid_no_base by (rewrite ?Hd; eauto). auto.
  - rewrite demo_uuid_no_variable by assumption. auto.
Qed.

Lemma demo_uuid_raise_frames_witness :
  globals (_demo_uuid bare_host (mkGlobals (Some "example.org") 3))
  = mkGlobals (Some "example.org") 3.
Proof.
  refine (proj1 (demo_uuid_raise_frames bare_host
                   (mkGlobals (Some "example.org") 3)
                   (ValueError
                      "demo_uuid() called without CASE_DEMO_NONRANDOM_UUID_BASE in environment.")
                   _)).
  vm_compute. reflexivity.
Defined.

(** ** Version numbers *)

Lemma version_UUID_version (n v : Z) :
  0 <= v < 16 -> version (UUID_version n v) = v.
Proof.
  intros Hv. unfold version, UUID_version. cbn [uuid_int].
  rewrite Z.shiftr_lor, Z.shiftr_shiftl_l by lia.
  rewrite Z.shiftr_land.
  replace (Z.shiftr (Z.lnot (Z.shiftl 0xf000 64)) 76) with (Z.lnot 0xf)
    by reflexivity.
  rewrite Z.land_lor_distr_l, <- Z.land_assoc.
  replace (Z.land (Z.lnot 0xf) 0xf) with 0 by reflexivity.
  rewrite Z.land_0_r, Z.lor_0_l.
  replace (76 - 76) with 0 by lia. rewrite Z.shiftl_0_r.
  change 0xf with (Z.ones 4). rewrite Z.land_ones by lia.
  apply Z.mod_small. change (2 ^ 4) with 16. lia.
Qed.

(** ** Runs *)

Lemma successively_cons {A} (call : M A) (rest : list (M A)) (g : Globals) :
  successively (call :: rest) g
  = (value (call g) :: (successively rest (globals (call g))).1,
     (successively rest (globals (call g))).2).
Proof. simpl. destruct (successively rest (globals (call g))). reflexivity. Qed.

Lemma generation_unset (calls : list (Host * Z)) (c : Z) :
  successively (generation_calls calls) (mkGlobals None c)
  = (map (fun hr => Return (str_UUID (uuid4 hr.2))) calls, mkGlobals None c).
Proof.
  induction calls as [|[h rnd] calls IH]; [reflexivity|].
  unfold generation_calls in *. cbn [map]. rewrite successively_cons.
  rewrite local_uuid_unset. cbn [value globals fst snd]. rewrite IH.
  reflexivity.
Qed.

Lemma generation_armed (calls : list (Host * Z)) (base : string) (c : Z) :
  Forall (fun hr => armed hr.1) calls ->
  successively (generation_calls calls) (mkGlobals (Some base) c)
  = (map (fun i => Return (demo_identifier base (c + i)))
         (seqZ 1 (Z.of_nat (length calls))),
     mkGlobals (Some base) (c + Z.of_nat (length calls))).
Proof.
  intros Hall. revert c.
  induction Hall as [|[h rnd] calls Hh Hall IH]; intros c.
  - cbn. rewrite Z.add_0_r. reflexivity.
  - unfold generation_calls in *. cbn [map]. rewrite successively_cons.
    cbn [fst snd]. rewrite local_uuid_set, demo_uuid_armed by exact Hh.
    cbn [value globals]. rewrite IH. cbn [fst snd length].
    rewrite Nat2Z.inj_succ.
    rewrite (seqZ_cons 1 (Z.succ (Z.of_nat (length calls)))) by lia.
    replace (Z.pred (Z.succ (Z.of_nat (length calls))))
      with (Z.of_nat (length calls)) by lia.
    replace (Z.succ 1) with (1 + 1) by lia.
    rewrite <- (fmap_add_seqZ 1 1). cbn [map].
    f_equal; [|f_equal; lia].
    f_equal. rewrite <- list_fmap_compose. apply list_fmap_ext.
    intros _ i _. cbn. do 2 f_equal. lia.
Qed.

(** C4. Calls of [local_uuid()] made while DEMO_UUID_BASE is None, however
    many and whatever the hosts answer: each returns the version-4 UUID of
    the random octets it drew, and the globals stay as they were; started
    from the freshly imported module, the counter is still 0 afterwards. *)
Theorem local_uuid_unset_sequence (calls : list (Host * Z)) (c : Z) :
  successively (generation_calls calls) (mkGlobals None c)
  = (map (fun hr => Return (str_UUID (uuid4 hr.2))) calls, mkGlobals None c)
  /\ DEMO_UUID_COUNTER (successively (generation_calls calls) initial).2 = 0
  /\ Forall (fun hr => version (uuid4 hr.2) = 4) calls.
Proof.
  split; [apply generation_unset|]. split.
  - unfold initial. rewrite generation_unset. reflexivity.
  - apply Forall_forall. intros hr _. apply version_UUID_version. lia.
Qed.

(** C1. With DEMO_UUID_BASE set to [base] and the variable in the
    environment, a call moves the counter from [c] to [c + 1] and returns
    the version-5 UUID of the name [base/(c + 1)] in the URL namespace; so
    the [i]-th of any number of successive calls returns the identifier of
    [base/(c + i)], whatever else the hosts answer: two runs of the same
    length from the same base string and counter give the same results. *)
Theorem demo_uuid_sequence
    (base : string) (c : Z) (h : Host) (rnd : Z) (calls : list (Host * Z)) :
  armed h ->
  Forall (fun hr => armed hr.1) calls ->
  _demo_uuid h (mkGlobals (Some base) c)
  = mkOutcome
      (Return (str_UUID (uuid5 NAMESPACE_URL (join "/" [base; str_int (c + 1)]))))
      (mkGlobals (Some base) (c + 1)) []
  /\ local_uuid h rnd (mkGlobals (Some base) c)
     = _demo_uuid h (mkGlobals (Some base) c)
  /\ version (uuid5 NAMESPACE_URL (join "/" [base; str_int (c + 1)])) = 5
  /\ successively (generation_calls calls) (mkGlobals (Some base) c)
     = (map (fun i =>
               Return (str_UUID
                 (uuid5 NAMESPACE_URL (join "/" [base; str_int (c + i)]))))
            (seqZ 1 (Z.of_nat (length calls))),
        mkGlobals (Some base) (c + Z.of_nat (length calls)))
  /\ (forall calls' : list (Host * Z),
        Forall (fun hr => armed hr.1) calls' ->
        length calls' = length calls ->
        successively (generation_calls calls') (mkGlobals (Some base) c)
        = successively (generation_calls calls) (mkGlobals (Some base) c)).
Proof.
  intros Hh Hall. split; [|split; [|split; [|split]]].
  - apply demo_uuid_armed, Hh.
  - apply local_uuid_set.
  - apply version_UUID_version. lia.
  - apply generation_armed, Hall.
  - intros calls' Hall' Hlen.
    rewrite !generation_armed by assumption. rewrite Hlen. reflexivity.
Qed.

Lemma demo_uuid_sequence_witness :
  successively (generation_calls [(demo_host, 7); (demo_host, 8)])
               (mkGlobals (Some "example.org/sub//usr/bin/tool/run") 0)
  = ([Return "bbddb578-f85b-507d-aba9-f5c1c818c3b2";
      Return "e2640b28-6d8f-59d8-82f3-b1ae07575f8e"],
     mkGlobals (Some "example.org/sub//usr/bin/tool/run") 2).
Proof.
  assert (Ha : armed demo_host) by (eexists; vm_compute; reflexivity).
  assert (Hall : Forall (fun hr : Host * Z => armed hr.1)
                        [(demo_host, 7); (demo_host, 8)])
    by (repeat constructor; exact Ha).
  rewrite (proj1 (proj2 (proj2 (proj2
    (demo_uuid_sequence "example.org/sub//usr/bin/tool/run" 0 demo_host 0
       [(demo_host, 7); (demo_host, 8)] Ha Hall))))).
  vm_compute. reflexivity.
Defined.




(** ** configure(): the five ways through it *)

(** Steps past the deprecated-variable test, which [Hdep] says fails. *)
Ltac past_deprecated Hdep :=
  unfold configure;
  rewrite bool_decide_eq_false_2 by exact Hdep;
  fold BASE_VARIABLE.

Lemma configure_deprecated (h : Host) (g : Globals) :
  deprecated_request h ->
  configure h g
  = mkOutcome (Return tt) g [Warn FutureWarning deprecation_message].
Proof.
  intros Hdep. unfold configure.
  rewrite bool_decide_eq_true_2 by exact Hdep. reflexivity.
Qed.

Lemma configure_absent (h : Host) (g : Globals) :
  ~ deprecated_request h ->
  getenv h BASE_VARIABLE = None ->
  configure h g = mkOutcome (Return tt) g [].
Proof.
  intros Hdep Hd. past_deprecated Hdep.
  rewrite Hd. reflexivity.
Qed.

Lemma configure_not_existing (h : Host) (g : Globals) (d : string) :
  ~ deprecated_request h ->
  getenv h BASE_VARIABLE = Some d ->
  path_exists h d = false ->
  configure h g
  = mkOutcome (Return tt) g [Warn RuntimeWarning not_existing_message].
Proof.
  intros Hdep Hd He. past_deprecated Hdep.
  rewrite Hd, He. reflexivity.
Qed.

Lemma configure_not_directory (h : Host) (g : Globals) (d : string) :
  ~ deprecated_request h ->
  getenv h BASE_VARIABLE = Some d ->
  path_exists h d = true ->
  path_is_dir h d = false ->
  configure h g
  = mkOutcome (Return tt) g [Warn RuntimeWarning not_directory_message].
Proof.
  intros Hdep Hd He Hi. past_deprecated Hdep.
  rewrite Hd, He, Hi. reflexivity.
Qed.

Lemma relative_to_prefix (p a : Pathlib.ResolvedPath) :
  Pathlib.relative_to p a
  = if Spec.is_ancestor a p then Some (drop (length a) p) else None.
Proof.
  unfold Spec.is_ancestor. revert p.
  induction a as [|o a IH]; intros p; cbn [Pathlib.relative_to].
  - rewrite bool_decide_eq_true_2 by apply prefix_nil. reflexivity.
  - destruct p as [|x p].
    + rewrite bool_decide_eq_false_2 by apply prefix_nil_not. reflexivity.
    + destruct (String.eqb_spec x o) as [->|Hne].
      * rewrite IH. cbn [length drop].
        destruct (decide (a `prefix_of` p)) as [Hp|Hp].
        -- rewrite !bool_decide_eq_true_2; auto using prefix_cons.
        -- rewrite !bool_decide_eq_false_2; auto.
           intros Hc. apply Hp. eapply prefix_cons_inv_2, Hc.
      * rewrite bool_decide_eq_false_2; [reflexivity|].
        intros Hc. apply Hne. symmetry. eapply prefix_cons_inv_1, Hc.
Qed.

Lemma srcdir_part_spec (h : Host) (d : string) :
  srcdir_part h d = Spec.working_directory_component h d.
Proof.
  unfold srcdir_part, Spec.working_directory_component, Spec.relative_if_below.
  rewrite relative_to_prefix.
  destruct (Spec.is_ancestor _ _); reflexivity.
Qed.

Lemma command_part_spec (h : Host) (g : Globals) (command : string)
    (args : list string) :
  argv h = command :: args ->
  command_part h g = mkOutcome (Return (Spec.command_component h command)) g [].
Proof.
  intros Hargv. unfold command_part, Spec.command_component, argv_0.
  rewrite Hargv. destruct (getenv h "VIRTUAL_ENV") as [venv|]; [|reflexivity].
  cbv [mbind M_bind bind ret value globals warned].
  unfold Spec.relative_if_below. rewrite relative_to_prefix.
  destruct (Spec.is_ancestor _ _); reflexivity.
Qed.

Lemma command_part_no_argv (h : Host) (g : Globals) :
  argv h = [] ->
  command_part h g
  = mkOutcome (Raise (IndexError "list index out of range")) g [].
Proof.
  intros Hargv. unfold command_part, argv_0. rewrite Hargv.
  destruct (getenv h "VIRTUAL_ENV"); reflexivity.
Qed.

Lemma configure_stores (h : Host) (g : Globals) (d command : string)
    (args : list string) :
  ~ deprecated_request h ->
  getenv h BASE_VARIABLE = Some d ->
  path_exists h d = true ->
  path_is_dir h d = true ->
  argv h = command :: args ->
  configure h g
  = mkOutcome (Return tt)
      (mkGlobals (Some (Spec.base_string h d command args))
                 (DEMO_UUID_COUNTER g))
      [].
Proof.
  intros Hdep Hd He Hi Hargv. past_deprecated Hdep.
  rewrite Hd, He, Hi. cbn [negb].
  unfold mbind, M_bind, bind.
  rewrite (command_part_spec h g command args Hargv).
  cbn [value globals warned]. rewrite srcdir_part_spec, Hargv.
  unfold Spec.base_string. destruct args; reflexivity.
Qed.

Lemma configure_no_argv (h : Host) (g : Globals) (d : string) :
  ~ deprecated_request h ->
  getenv h BASE_VARIABLE = Some d ->
  path_exists h d = true ->
  path_is_dir h d = true ->
  argv h = [] ->
  configure h g
  = mkOutcome (Raise (IndexError "list index out of range")) g [].
Proof.
  intros Hdep Hd He Hi Hargv. past_deprecated Hdep.
  rewrite Hd, He, Hi. cbn [negb].
  unfold mbind, M_bind, bind.
  rewrite (command_part_no_argv h g Hargv). reflexivity.
Qed.

Lemma globals_eta (g : Globals) :
  mkGlobals (DEMO_UUID_BASE g) (DEMO_UUID_COUNTER g) = g.
Proof. destruct g; reflexivity. Qed.

(** Whatever the globals, [configure()] on one host does one thing: it
    stores one base string or none, and touches nothing else. *)
Lemma configure_shape (h : Host) :
  exists (v : result unit) (b : option string) (ws : list Warning),
    (argv h <> [] -> v = Return tt)
    /\ forall g,
        configure h g
        = mkOutcome v
            (mkGlobals (match b with
                        | Some x => Some x
                        | None => DEMO_UUID_BASE g
                        end)
                       (DEMO_UUID_COUNTER g))
            ws.
Proof.
  destruct (decide (deprecated_request h)) as [Hdep|Hdep].
  { exists (Return tt), None, [Warn FutureWarning deprecation_message].
    split; [reflexivity|]. intros g. rewrite globals_eta.
    apply configure_deprecated, Hdep. }
  destruct (getenv h BASE_VARIABLE) as [d|] eqn:Hd.
  2:{ exists (Return tt), None, []. split; [reflexivity|]. intros g.
      rewrite globals_eta. apply configure_absent; assumption. }
  destruct (path_exists h d) eqn:He.
  2:{ exists (Return tt), None, [Warn RuntimeWarning not_existing_message].
      split; [reflexivity|]. intros g. rewrite globals_eta.
      eapply configure_not_existing; eassumption. }
  destruct (path_is_dir h d) eqn:Hi.
  2:{ exists (Return tt), None, [Warn RuntimeWarning not_directory_message].
      split; [reflexivity|]. intros g. rewrite globals_eta.
      eapply configure_not_directory; eassumption. }
  destruct (argv h) as [|command args] eqn:Hargv.
  - exists (Raise (IndexError "list index out of range")), None, [].
    split; [congruence|]. intros g. rewrite globals_eta.
    eapply configure_no_argv; eassumption.
  - exists (Return tt), (Some (Spec.base_string h d command args)), [].
    split; [reflexivity|]. intros g.
    eapply configure_stores; eassumption.
Qed.


(** Without a directory to anchor on, [configure()] leaves the globals. *)
Lemma configure_disarmed_frames (h : Host) (g : Globals) :
  getenv h BASE_VARIABLE = None
  \/ (exists d, getenv h BASE_VARIABLE = Some d /\ not_a_directory h d) ->
  globals (configure h g) = g.
Proof.
  intros Hcase.
  destruct (decide (deprecated_request h)) as [Hdep|Hdep].
  { rewrite configure_deprecated by exact Hdep. reflexivity. }
  destruct Hcase as [Hd|(d & Hd & Hnot)].
  { rewrite configure_absent by assumption. reflexivity. }
  destruct (path_exists h d) eqn:He.
  - destruct Hnot as [Hnot|Hnot]; [congruence|].
    erewrite configure_not_directory by eassumption. reflexivity.
  - erewrite configure_not_existing by eassumption. reflexivity.
Qed.


(** ** configure(): the claims *)

(** C5. With the deprecated request absent and the base variable naming an
    existing directory, [configure()] stores the ["/"]-join of:
    ["example.org"]; the working directory relative to the resolved base
    directory if that is an ancestor of it, else the resolved absolute
    working directory; the command (relative to the resolved VIRTUAL_ENV if
    set and an ancestor, the resolved absolute command if set and not an
    ancestor, the string as invoked if VIRTUAL_ENV is unset); then every
    further argument in order. Nothing else changes and nothing is
    warned. *)
Theorem configure_base_string (h : Host) (g : Globals) (d command : string)
    (args : list string) :
  ~ deprecated_request h ->
  getenv h BASE_VARIABLE = Some d ->
  path_exists h d = true ->
  path_is_dir h d = true ->
  argv h = command :: args ->
  configure h g
  = mkOutcome (Return tt)
      (mkGlobals (Some (Spec.base_string h d command args))
                 (DEMO_UUID_COUNTER g))
      [].
Proof. apply configure_stores. Qed.

Lemma configure_base_string_witness :
  configure venv_host initial
  = mkOutcome (Return tt)
      (mkGlobals (Some "example.org/sub/bin/tool/run") 0) [].
Proof.
  rewrite (configure_base_string venv_host initial "/tmp/work"
             "/usr/bin/tool" ["run"]).
  - vm_compute. reflexivity.
  - unfold deprecated_request. vm_compute. discriminate.
  - vm_compute. reflexivity.
  - vm_compute. reflexivity.
  - vm_compute. reflexivity.
  - vm_compute. reflexivity.
Defined.




(** C8. When DEMO_UUID_REQUESTING_NONRANDOM is NONRANDOM_REQUESTED,
    [configure()] emits the deprecation FutureWarning and nothing else
    happens, whatever the base variable says, a valid directory included:
    DEMO_UUID_BASE, if None, stays None and [local_uuid()] stays random. *)
Theorem configure_deprecated_first (h : Host) (g : Globals) :
  deprecated_request h ->
  configure h g
  = mkOutcome (Return tt) g [Warn FutureWarning deprecation_message]
  /\ (DEMO_UUID_BASE g = None ->
        DEMO_UUID_BASE (globals (configure h g)) = None
        /\ forall h' rnd,
            local_uuid h' rnd (globals (configure h g))
            = mkOutcome (Return (str_UUID (uuid4 rnd))) g []).
Proof.
  intros Hdep. rewrite configure_deprecated by exact Hdep.
  split; [reflexivity|]. cbn [globals]. intros Hb. split; [exact Hb|].
  intros h' rnd. destruct g as [b c]. cbn in Hb. subst b.
  apply local_uuid_unset.
Qed.

Lemma configure_deprecated_first_witness :
  (getenv deprecated_host BASE_VARIABLE = Some "/tmp/work"
   /\ path_exists deprecated_host "/tmp/work" = true
   /\ path_is_dir deprecated_host "/tmp/work" = true)
  /\ configure deprecated_host initial
     = mkOutcome (Return tt) initial [Warn FutureWarning deprecation_message].
Proof.
  split; [vm_compute; repeat split; reflexivity|].
  refine (proj1 (configure_deprecated_first deprecated_host initial _)).
  vm_compute. reflexivity.
Defined.

(** C9. On an unchanged host a second [configure()] does what the first
    did and leaves the globals the first one left, so the same base string
    is stored; and no [configure()] changes DEMO_UUID_COUNTER. *)
Theorem configure_idempotent (h : Host) (g : Globals) :
  configure h (globals (configure h g)) = configure h g
  /\ DEMO_UUID_BASE (globals (configure h (globals (configure h g))))
     = DEMO_UUID_BASE (globals (configure h g))
  /\ DEMO_UUID_COUNTER (globals (configure h g)) = DEMO_UUID_COUNTER g.
Proof.
  destruct (configure_shape h) as (v & b & ws & _ & Hc).
  assert (Hidem : configure h (globals (configure h g)) = configure h g).
  { rewrite (Hc (globals (configure h g))), (Hc g). cbn.
    destruct b; reflexivity. }
  split; [exact Hidem|]. split; [rewrite Hidem; reflexivity|].
  rewrite (Hc g). reflexivity.
Qed.

Example configure_twice_demo :
  configure demo_host (mkGlobals (Some "stale") 41)
  = mkOutcome (Return tt)
      (mkGlobals (Some "example.org/sub//usr/bin/tool/run") 41) []
  /\ configure demo_host
       (globals (configure demo_host (mkGlobals (Some "stale") 41)))
     = configure demo_host (mkGlobals (Some "stale") 41).
Proof. vm_compute. split; reflexivity. Qed.

(** ** A UUID is a number below 2^128 *)

Lemma fits_land_ones (k x : Z) :
  0 <= k -> (0 <= x < 2 ^ k <-> Z.land x (Z.ones k) = x).
Proof.
  intros Hk. rewrite Z.land_ones by exact Hk. split.
  - intros Hx. apply Z.mod_small, Hx.
  - intros <-. apply Z.mod_pos_bound. lia.
Qed.

Lemma fits_land (k x m : Z) :
  0 <= k -> 0 <= x < 2 ^ k -> 0 <= Z.land x m < 2 ^ k.
Proof.
  intros Hk Hx. apply fits_land_ones in Hx; [|exact Hk].
  apply fits_land_ones; [exact Hk|].
  rewrite <- Z.land_assoc, (Z.land_comm m), Z.land_assoc, Hx. reflexivity.
Qed.

Lemma fits_lor (k x y : Z) :
  0 <= k -> 0 <= x < 2 ^ k -> 0 <= y < 2 ^ k -> 0 <= Z.lor x y < 2 ^ k.
Proof.
  intros Hk Hx Hy.
  apply fits_land_ones in Hx; [|exact Hk].
  apply fits_land_ones in Hy; [|exact Hk].
  apply fits_land_ones; [exact Hk|].
  rewrite Z.land_lor_distr_l, Hx, Hy. reflexivity.
Qed.

Lemma fits_mono (k k' x : Z) :
  0 <= k <= k' -> 0 <= x < 2 ^ k -> 0 <= x < 2 ^ k'.
Proof.
  intros Hk Hx. split; [lia|].
  apply Z.lt_le_trans with (2 ^ k); [lia|].
  apply Z.pow_le_mono_r; lia.
Qed.

Lemma from_bytes_fits (bs : list Z) :
  Forall (fun b => 0 <= b < 2 ^ 8) bs ->
  0 <= Sha1.from_bytes bs < 2 ^ (8 * Z.of_nat (length bs)).
Proof.
  intros Hbs. unfold Sha1.from_bytes.
  assert (Hgen : forall k acc, 0 <= k -> 0 <= acc < 2 ^ k ->
            0 <= fold_left (fun acc b => Z.lor (Z.shiftl acc 8) b) bs acc
              < 2 ^ (k + 8 * Z.of_nat (length bs))).
  { induction Hbs as [|b bs Hb Hbs IH]; intros k acc Hk Hacc.
    - cbn [fold_left length]. replace (k + 8 * Z.of_nat 0) with k by lia.
      exact Hacc.
    - cbn [fold_left length].
      replace (k + 8 * Z.of_nat (S (length bs)))
        with ((k + 8) + 8 * Z.of_nat (length bs)) by lia.
      apply IH; [lia|]. apply fits_lor; [lia| |].
      + rewrite Z.shiftl_mul_pow2, Z.pow_add_r by lia. nia.
      + apply fits_mono with 8; [lia|exact Hb]. }
  apply (Hgen 0 0); [lia|]. change (2 ^ 0) with 1. lia.
Qed.

Lemma to_bytes_fits (n : nat) (x : Z) :
  Forall (fun b => 0 <= b < 2 ^ 8) (Sha1.to_bytes n x).
Proof.
  induction n as [|n IH]; cbn [Sha1.to_bytes]; constructor; [|exact IH].
  change 0xff with (Z.ones 8). rewrite Z.land_ones by lia.
  apply Z.mod_pos_bound. lia.
Qed.

Lemma digest_fits (msg : list Z) :
  Forall (fun b => 0 <= b < 2 ^ 8) (Sha1.digest msg).
Proof.
  unfold Sha1.digest. cbv zeta.
  repeat (apply Forall_app; split); apply to_bytes_fits.
Qed.

Lemma UUID_version_fits (n v : Z) :
  0 <= n < 2 ^ 128 -> 0 <= v < 16 ->
  0 <= uuid_int (UUID_version n v) < 2 ^ 128.
Proof.
  intros Hn Hv. unfold UUID_version. cbn [uuid_int].
  apply fits_lor; [lia| |].
  - apply fits_land; [lia|]. apply fits_lor; [lia| |].
    + apply fits_land; [lia|exact Hn].
    + split; [vm_compute; discriminate|reflexivity].
  - rewrite Z.shiftl_mul_pow2 by lia.
    change (2 ^ 128) with (2 ^ 52 * 2 ^ 76).
    assert (Hp : 0 < 2 ^ 76) by reflexivity.
    assert (Hq : 16 <= 2 ^ 52) by (vm_compute; discriminate).
    revert Hp Hq. generalize (2 ^ 76) (2 ^ 52). intros p q Hp Hq. nia.
Qed.

Lemma uuid5_fits (namespace : UUID) (name : string) :
  0 <= uuid_int (uuid5 namespace name) < 2 ^ 128.
Proof.
  unfold uuid5. cbv zeta. apply UUID_version_fits; [|lia].
  match goal with |- _ <= Sha1.from_bytes ?bs < _ =>
    pose proof (from_bytes_fits bs) as Hb;
    assert (Hlen : (length bs <= 16)%nat) by apply firstn_le_length
  end.
  eapply fits_mono; [|apply Hb, Forall_take, digest_fits]. lia.
Qed.

(** ** [str] of a UUID determines it *)

Lemma hexdigit_inj (d d' : Z) :
  0 <= d < 16 -> 0 <= d' < 16 -> hexdigit d = hexdigit d' -> d = d'.
Proof.
  intros Hd Hd' Heq. unfold hexdigit in Heq.
  apply (f_equal Ascii.N_of_ascii) in Heq.
  rewrite !Ascii.N_ascii_embedding in Heq.
  - destruct (Z.ltb_spec d 10), (Z.ltb_spec d' 10); lia.
  - destruct (Z.ltb_spec d' 10); lia.
  - destruct (Z.ltb_spec d 10); lia.
Qed.

Lemma nibble_range (x k : Z) : 0 <= Z.land (Z.shiftr x k) 0xf < 16.
Proof.
  change 0xf with (Z.ones 4). rewrite Z.land_ones by lia.
  apply Z.mod_pos_bound. lia.
Qed.

Lemma hex_inj (n : nat) (x y : Z) :
  hex n x = hex n y -> x mod 2 ^ (4 * Z.of_nat n) = y mod 2 ^ (4 * Z.of_nat n).
Proof.
  induction n as [|n IH]; intros Heq.
  - change (2 ^ (4 * Z.of_nat 0)) with 1. rewrite !Z.mod_1_r. reflexivity.
  - cbn [hex] in Heq. injection Heq as Hd Hrest.
    apply hexdigit_inj in Hd; try apply nibble_range.
    specialize (IH Hrest).
    replace (4 * Z.of_nat (S n)) with (4 * Z.of_nat n + 4) by lia.
    rewrite Z.pow_add_r by lia.
    rewrite !Z.rem_mul_r by lia.
    change 0xf with (Z.ones 4) in Hd.
    rewrite !Z.land_ones, !Z.shiftr_div_pow2 in Hd by lia.
    rewrite IH, Hd. reflexivity.
Qed.

Lemma str_UUID_hex (u v : UUID) :
  str_UUID u = str_UUID v -> hex 32 (uuid_int u) = hex 32 (uuid_int v).
Proof.
  unfold str_UUID. cbn [hex]. cbv [String.substring String.app String.append].
  intros Heq. injection Heq. intros. congruence.
Qed.

Lemma str_UUID_inj (u v : UUID) :
  0 <= uuid_int u < 2 ^ 128 -> 0 <= uuid_int v < 2 ^ 128 ->
  str_UUID u = str_UUID v -> u = v.
Proof.
  intros Hu Hv Heq. apply str_UUID_hex, hex_inj in Heq.
  change (2 ^ (4 * Z.of_nat 32)) with (2 ^ 128) in Heq.
  rewrite !Z.mod_small in Heq by assumption.
  destruct u, v. cbn in Heq. congruence.
Qed.

(** ** More calls than UUIDs *)

(** Among the values of [f] at [0 .. m], taken from [0 .. m - 1], one of
    them is that of a chosen point, or none is. *)
Lemma search_below (f : Z -> Z) (v m : Z) :
  0 <= m ->
  (exists i, 0 <= i < m /\ f i = v) \/ (forall i, 0 <= i < m -> f i <> v).
Proof.
  intros Hm. pattern m. apply natlike_ind; [| |exact Hm].
  - right. intros i Hi. lia.
  - intros k Hk [(i & Hi & Hf)|Hnone].
    + left. exists i. split; [lia|exact Hf].
    + destruct (decide (f k = v)) as [Heq|Hne].
      * left. exists k. split; [lia|exact Heq].
      * right. intros i Hi. destruct (decide (i = k)) as [->|Hik];
          [exact Hne|apply Hnone; lia].
Qed.

Lemma pigeonhole (m : Z) :
  0 <= m ->
  forall f : Z -> Z,
    (forall i, 0 <= i <= m -> 0 <= f i < m) ->
    exists i j, 0 <= i < j /\ j <= m /\ f i = f j.
Proof.
  intros Hm. pattern m. apply natlike_ind; [| |exact Hm].
  - intros f Hf. specialize (Hf 0). lia.
  - clear m Hm. intros m Hm IH f Hf.
    destruct (search_below f (f (Z.succ m)) (Z.succ m)) as
      [(i & Hi & Heq)|Hnone]; [lia| |].
    { exists i, (Z.succ m). split; [lia|]. split; [lia|exact Heq]. }
    set (v := f (Z.succ m)) in *.
    destruct (IH (fun i => if f i <? v then f i else f i - 1))
      as (i & j & Hij & Hj & Heq).
    { intros i Hi. cbv beta.
      pose proof (Hf i ltac:(lia)). pose proof (Hnone i ltac:(lia)).
      pose proof (Hf (Z.succ m) ltac:(lia)). fold v in H1.
      destruct (Z.ltb_spec (f i) v); lia. }
    exists i, j. split; [exact Hij|]. split; [lia|].
    cbv beta in Heq.
    pose proof (Hnone i ltac:(lia)). pose proof (Hnone j ltac:(lia)).
    destruct (Z.ltb_spec (f i) v), (Z.ltb_spec (f j) v); lia.
Qed.

(** ** Repeats in a deterministic run *)

Lemma demo_name_inj (base : string) (i j : Z) :
  demo_name base i = demo_name base j -> i = j.
Proof.
  unfold demo_name, str_int. intros Heq.
  apply String.app_inj, String.app_inj in Heq.
  apply pretty_Z_inj in Heq. exact Heq.
Qed.

Lemma NoDup_demo_names (base : string) (c : Z) (n : nat) :
  NoDup (demo_names base c n).
Proof.
  unfold demo_names.
  apply (NoDup_fmap_2_strong (fun i => demo_name base (c + i))).
  - intros i j _ _ Heq. apply demo_name_inj in Heq. lia.
  - apply NoDup_seqZ.
Qed.

Lemma generation_armed_names (calls : list (Host * Z)) (base : string) (c : Z) :
  Forall (fun hr => armed hr.1) calls ->
  (successively (generation_calls calls) (mkGlobals (Some base) c)).1
  = map (fun name => Return (str_UUID (uuid5 NAMESPACE_URL name)))
        (demo_names base c (length calls)).
Proof.
  intros Hall. rewrite generation_armed by exact Hall. cbn [fst].
  unfold demo_names. rewrite map_map. reflexivity.
Qed.

(** A run longer than the number of values a UUID can take repeats one. *)
Lemma repeats_in_run (h : Host) (base : string) (c m : Z) :
  0 <= m ->
  (forall name, 0 <= uuid_int (uuid5 NAMESPACE_URL name) < m) ->
  armed h ->
  ~ NoDup (generated h (Z.to_nat (m + 1)) (mkGlobals (Some base) c)).
Proof.
  intros Hm Hfit Ha Hnd. unfold generated in Hnd.
  rewrite generation_armed in Hnd by (apply Forall_replicate, Ha).
  rewrite length_replicate in Hnd. cbn [fst] in Hnd.
  destruct (pigeonhole m Hm
              (fun i => uuid_int (uuid5 NAMESPACE_URL
                                    (demo_name base (c + (1 + i))))))
    as (i & j & Hij & Hj & Heq).
  { intros i _. apply Hfit. }
  cbv beta in Heq.
  assert (Hsame : demo_identifier base (c + (1 + i))
                  = demo_identifier base (c + (1 + j))).
  { unfold demo_identifier.
    destruct (uuid5 NAMESPACE_URL (demo_name base (c + (1 + i)))) as [x].
    destruct (uuid5 NAMESPACE_URL (demo_name base (c + (1 + j)))) as [y].
    cbn [uuid_int] in Heq. subst y. reflexivity. }
  assert (Hlook : forall k, 0 <= k <= m ->
            map (fun i => Return (demo_identifier base (c + i)))
                (seqZ 1 (Z.of_nat (Z.to_nat (m + 1)))) !! Z.to_nat k
            = Some (Return (demo_identifier base (c + (1 + k))))).
  { intros k Hk.
    change (map ?f ?l) with (f <$> l).
    rewrite list_lookup_fmap, lookup_seqZ_lt by lia.
    cbn [fmap option_fmap option_map]. rewrite Z2Nat.id by lia. reflexivity. }
  pose proof (Hlook i ltac:(lia)) as Hi.
  pose proof (Hlook j ltac:(lia)) as Hjj.
  rewrite <- Hsame in Hjj.
  pose proof (NoDup_lookup _ _ _ _ Hnd Hi Hjj) as Hpos.
  lia.
Qed.

(** C6, as it stands, fails: a UUID takes one of 2^128 values, so the run
    started by [configure()] on the sample host cannot go on without a
    repeat for every number of calls. *)
Lemma demo_uuid_run_repeats :
  ~ (forall n : nat,
       NoDup (generated demo_host n (globals (configure demo_host initial)))).
Proof.
  intros Hall.
  assert (Hg : globals (configure demo_host initial)
               = mkGlobals (Some "example.org/sub//usr/bin/tool/run") 0)
    by (vm_compute; reflexivity).
  specialize (Hall (Z.to_nat (2 ^ 128 + 1))). rewrite Hg in Hall.
  revert Hall. apply repeats_in_run.
  - apply Z.pow_nonneg. lia.
  - intros name. apply uuid5_fits.
  - eexists. vm_compute. reflexivity.
Qed.

(** C6, amended. In a run of calls on armed hosts from DEMO_UUID_BASE
    [base] and counter [c], the [i]-th identifier is the UUID of the name
    [base/(c + i)]; these names are pairwise different, so two identifiers
    of the run are equal only where [uuid5] gives two different names the
    same UUID. *)
Theorem demo_names_distinct (base : string) (c : Z) (calls : list (Host * Z)) :
  Forall (fun hr => armed hr.1) calls ->
  (successively (generation_calls calls) (mkGlobals (Some base) c)).1
  = map (fun name => Return (str_UUID (uuid5 NAMESPACE_URL name)))
        (demo_names base c (length calls))
  /\ NoDup (demo_names base c (length calls))
  /\ (forall (i j : nat) (a b : string),
        i <> j ->
        (successively (generation_calls calls)
                      (mkGlobals (Some base) c)).1 !! i = Some (Return a) ->
        (successively (generation_calls calls)
                      (mkGlobals (Some base) c)).1 !! j = Some (Return b) ->
        exists na nb,
          na <> nb
          /\ demo_names base c (length calls) !! i = Some na
          /\ demo_names base c (length calls) !! j = Some nb
          /\ a = str_UUID (uuid5 NAMESPACE_URL na)
          /\ b = str_UUID (uuid5 NAMESPACE_URL nb)
          /\ (a = b -> uuid5 NAMESPACE_URL na = uuid5 NAMESPACE_URL nb)).
Proof.
  intros Hall. split; [apply generation_armed_names, Hall|].
  split; [apply NoDup_demo_names|].
  intros i j a b Hij. rewrite generation_armed_names by exact Hall.
  change (map ?f ?l) with (f <$> l). rewrite !list_lookup_fmap.
  destruct (demo_names base c (length calls) !! i) as [na|] eqn:Hi;
    [|discriminate].
  destruct (demo_names base c (length calls) !! j) as [nb|] eqn:Hj;
    [|discriminate].
  cbn. intros [= <-] [= <-]. exists na, nb.
  split.
  { intros <-. apply Hij.
    eapply NoDup_lookup; [apply NoDup_demo_names|exact Hi|exact Hj]. }
  do 4 (split; [reflexivity|]).
  apply str_UUID_inj; apply uuid5_fits.
Qed.

Lemma demo_names_distinct_witness :
  NoDup (demo_names "example.org/sub//usr/bin/tool/run" 0 2)
  /\ demo_names "example.org/sub//usr/bin/tool/run" 0 2
     = ["example.org/sub//usr/bin/tool/run/1";
        "example.org/sub//usr/bin/tool/run/2"].
Proof.
  assert (Ha : armed demo_host) by (eexists; vm_compute; reflexivity).
  assert (Hall : Forall (fun hr : Host * Z => armed hr.1)
                        [(demo_host, 7); (demo_host, 8)])
    by (repeat constructor; exact Ha).
  split; [|vm_compute; reflexivity].
  exact (proj1 (proj2
    (demo_names_distinct "example.org/sub//usr/bin/tool/run" 0
       [(demo_host, 7); (demo_host, 8)] Hall))).
Defined.

(** * Further properties of the module *)

(** ** The form of the identifiers *)

Lemma is_hex_lower_hexdigit (d : Z) :
  0 <= d < 16 -> is_hex_lower (hexdigit d) = true.
Proof.
  intros Hd. unfold is_hex_lower, hexdigit. cbv zeta.
  rewrite Ascii.N_ascii_embedding by (destruct (Z.ltb_spec d 10); lia).
  destruct (Z.ltb_spec d 10).
  - apply orb_true_intro. left. apply andb_true_intro.
    split; apply N.leb_le; lia.
  - apply orb_true_intro. right. apply andb_true_intro.
    split; apply N.leb_le; lia.
Qed.

Lemma canonical_str_UUID (u : UUID) : canonical (str_UUID u) = true.
Proof.
  unfold canonical, str_UUID. cbn [hex].
  cbv [String.substring String.app String.append].
  cbn [read hex_run hyphen].
  repeat (rewrite is_hex_lower_hexdigit by apply nibble_range;
          cbn [read hex_run hyphen Ascii.eqb Bool.eqb]).
  reflexivity.
Qed.

Lemma get_14_str_UUID (u : UUID) :
  String.get 14 (str_UUID u) = Some (hexdigit (version u)).
Proof.
  unfold str_UUID, version. cbn [hex].
  cbv [String.substring String.app String.append].
  reflexivity.
Qed.

(** The outcomes of [local_uuid()], by the state it is called in. *)
Lemma local_uuid_returns (h : Host) (rnd : Z) (g : Globals) (s : string) :
  value (local_uuid h rnd g) = Return s ->
  (DEMO_UUID_BASE g = None /\ s = str_UUID (uuid4 rnd))
  \/ (exists base,
        DEMO_UUID_BASE g = Some base /\ armed h
        /\ s = str_UUID (uuid5 NAMESPACE_URL
                           (demo_name base (DEMO_UUID_COUNTER g + 1)))).
Proof.
  destruct g as [[base|] c]; cbn [DEMO_UUID_BASE DEMO_UUID_COUNTER].
  - rewrite local_uuid_set.
    destruct (getenv h BASE_VARIABLE) as [d|] eqn:Hd.
    + assert (Ha : armed h) by (unfold armed; rewrite Hd; eauto).
      rewrite demo_uuid_armed by exact Ha. intros [= <-]. right. eauto.
    + rewrite demo_uuid_no_variable by exact Hd. discriminate.
  - rewrite local_uuid_unset. intros [= <-]. left. auto.
Qed.

(** X1. Whatever [local_uuid()] returns is in the canonical textual form
    of a UUID: 36 characters, lowercase hexadecimal digits in groups of
    8, 4, 4, 4 and 12 separated by hyphens. *)
Theorem local_uuid_canonical (h : Host) (rnd : Z) (g : Globals) (s : string) :
  value (local_uuid h rnd g) = Return s ->
  canonical s = true /\ String.length s = 36%nat.
Proof.
  intros Hs.
  assert (Hu : exists u, s = str_UUID u).
  { apply local_uuid_returns in Hs as [[_ ->]|(base & _ & _ & ->)]; eauto. }
  destruct Hu as [u ->]. split; [apply canonical_str_UUID|].
  unfold str_UUID. cbn [hex].
  cbv [String.substring String.app String.append]. reflexivity.
Qed.

Lemma local_uuid_canonical_witness :
  canonical "bbddb578-f85b-507d-aba9-f5c1c818c3b2" = true
  /\ String.length "bbddb578-f85b-507d-aba9-f5c1c818c3b2" = 36%nat.
Proof.
  apply (local_uuid_canonical demo_host 0
           (mkGlobals (Some "example.org/sub//usr/bin/tool/run") 0)).
  vm_compute. reflexivity.
Defined.

(** X2. The fifteenth character of what [local_uuid()] returns tells the
    mode it was produced in: ["4"] while DEMO_UUID_BASE is None, ["5"] once
    it is set. So no identifier of the deterministic mode is one the random
    mode can return. *)
Theorem local_uuid_version_digit
    (h : Host) (rnd : Z) (g : Globals) (s : string) :
  value (local_uuid h rnd g) = Return s ->
  String.get 14 s
  = Some (match DEMO_UUID_BASE g with None => "4" | Some _ => "5" end)%char
  /\ forall h' rnd' g' s',
       value (local_uuid h' rnd' g') = Return s' ->
       is_Some (DEMO_UUID_BASE g) -> DEMO_UUID_BASE g' = None ->
       s <> s'.
Proof.
  assert (Hdigit : forall h rnd g s,
            value (local_uuid h rnd g) = Return s ->
            String.get 14 s
            = Some (match DEMO_UUID_BASE g with
                    | None => "4" | Some _ => "5" end)%char).
  { clear. intros h rnd g s Hs.
    apply local_uuid_returns in Hs as [[Hb ->]|(base & Hb & _ & ->)];
      rewrite Hb, get_14_str_UUID.
    - unfold uuid4. rewrite version_UUID_version by lia. reflexivity.
    - unfold uuid5. cbv zeta. rewrite version_UUID_version by lia.
      reflexivity. }
  intros Hs. split; [apply Hdigit with h rnd, Hs|].
  intros h' rnd' g' s' Hs' [base Hb] Hb' <-.
  apply Hdigit in Hs. apply Hdigit in Hs'.
  rewrite Hb in Hs. rewrite Hb' in Hs'. congruence.
Qed.

Lemma local_uuid_version_digit_witness :
  String.get 14 "bbddb578-f85b-507d-aba9-f5c1c818c3b2" = Some "5"%char.
Proof.
  apply (local_uuid_version_digit demo_host 0
           (mkGlobals (Some "example.org/sub//usr/bin/tool/run") 0)).
  vm_compute. reflexivity.
Defined.

Example canonical_rejects :
  canonical "BBDDB578-F85B-507D-ABA9-F5C1C818C3B2" = false
  /\ canonical "bbddb578f85b507daba9f5c1c818c3b2" = false
  /\ canonical "bbddb578-f85b-507d-aba9-f5c1c818c3b2-" = false
  /\ canonical "" = false.
Proof. vm_compute. repeat split; reflexivity. Qed.

(** ** What calls of local_uuid() do to the globals *)



(** ** Joining *)

Lemma string_app_assoc (s t u : string) : (s +:+ t) +:+ u = s +:+ t +:+ u.
Proof.
  induction s as [|a s IH]; [reflexivity|].
  change (String a (s +:+ t) +:+ u = String a (s +:+ t +:+ u)).
  change (String a ((s +:+ t) +:+ u) = String a (s +:+ t +:+ u)).
  rewrite IH. reflexivity.
Qed.

Lemma join_cons (sep p q : string) (rest : list string) :
  join sep (p :: q :: rest) = p +:+ sep +:+ join sep (q :: rest).
Proof. reflexivity. Qed.

Lemma join_snoc (sep p x : string) (parts : list string) :
  join sep ((p :: parts) ++ [x]) = join sep (p :: parts) +:+ sep +:+ x.
Proof.
  revert p. induction parts as [|q parts IH]; intros p; [reflexivity|].
  change ((p :: q :: parts) ++ [x]) with (p :: (q :: parts) ++ [x]).
  change ((q :: parts) ++ [x]) with (q :: parts ++ [x]) at 1.
  rewrite join_cons.
  change (q :: parts ++ [x]) with ((q :: parts) ++ [x]).
  rewrite IH, join_cons, string_app_assoc.
  f_equal. rewrite string_app_assoc. reflexivity.
Qed.

(** ** configure() and local_uuid() together *)





(** X5. [configure()] on a host whose base variable names an existing
    directory, then [n] calls of [local_uuid()] while the variable stays:
    the calls return, in order, the version-5 UUIDs of the names
    [example.org/<working directory>/<command>/<arguments...>/k] for
    [k] from one past the counter [configure()] found, and the counter
    ends [n] higher. *)
Theorem configure_then_generate
    (h : Host) (g : Globals) (d command : string) (args : list string)
    (calls : list (Host * Z)) :
  ~ deprecated_request h ->
  names_directory h d ->
  argv h = command :: args ->
  Forall (fun hr => armed hr.1) calls ->
  successively (generation_calls calls) (globals (configure h g))
  = (map (fun k =>
            Return (str_UUID (uuid5 NAMESPACE_URL
              (join "/" ("example.org"
                         :: Spec.working_directory_component h d
                         :: Spec.command_component h command
                         :: args ++ [str_int (DEMO_UUID_COUNTER g + k)])))))
         (seqZ 1 (Z.of_nat (length calls))),
     mkGlobals (Some (Spec.base_string h d command args))
               (DEMO_UUID_COUNTER g + Z.of_nat (length calls))).
Proof.
  intros Hdep (Hd & He & Hi) Hargv Hall.
  erewrite configure_stores by eassumption. cbn [globals].
  rewrite generation_armed by exact Hall. f_equal.
  apply list_fmap_ext. intros _ k _.
  unfold demo_identifier, demo_name, Spec.base_string.
  rewrite <- join_snoc. reflexivity.
Qed.

Lemma configure_then_generate_witness :
  successively (generation_calls [(demo_host, 1); (demo_host, 2)])
               (globals (configure demo_host initial))
  = ([Return "bbddb578-f85b-507d-aba9-f5c1c818c3b2";
      Return "e2640b28-6d8f-59d8-82f3-b1ae07575f8e"],
     mkGlobals (Some "example.org/sub//usr/bin/tool/run") 2).
Proof.
  assert (Ha : armed demo_host) by (eexists; vm_compute; reflexivity).
  rewrite (configure_then_generate demo_host initial "/tmp/work"
             "/usr/bin/tool" ["run"] [(demo_host, 1); (demo_host, 2)]).
  - vm_compute. reflexivity.
  - unfold deprecated_request. vm_compute. discriminate.
  - repeat split; vm_compute; reflexivity.
  - vm_compute. reflexivity.
  - repeat constructor; exact Ha.
Defined.

(** ** What is read of the environment *)

Lemma configure_environ_ext (h : Host) (env : gmap string string)
    (g : Globals) :
  (deprecated_request (with_environ env h) <-> deprecated_request h) ->
  env !! BASE_VARIABLE = environ h !! BASE_VARIABLE ->
  env !! "VIRTUAL_ENV" = environ h !! "VIRTUAL_ENV" ->
  configure (with_environ env h) g = configure h g.
Proof.
  intros Hdep Hbase Hvenv. unfold configure.
  rewrite (bool_decide_ext _ _ Hdep).
  unfold srcdir_part, command_part, argv_0, getenv, with_environ.
  cbn [environ getcwd argv path_exists path_is_dir path_resolve].
  fold BASE_VARIABLE. rewrite Hbase, Hvenv. reflexivity.
Qed.

(** X6. [configure()] reads three variables of the environment and no
    other: on two environments that agree on
    DEMO_UUID_REQUESTING_NONRANDOM, CASE_DEMO_NONRANDOM_UUID_BASE and
    VIRTUAL_ENV it returns, stores and warns the same. *)
Theorem configure_reads_three_variables (h : Host) (env : gmap string string)
    (g : Globals) :
  env !! "DEMO_UUID_REQUESTING_NONRANDOM"
  = environ h !! "DEMO_UUID_REQUESTING_NONRANDOM" ->
  env !! BASE_VARIABLE = environ h !! BASE_VARIABLE ->
  env !! "VIRTUAL_ENV" = environ h !! "VIRTUAL_ENV" ->
  configure (with_environ env h) g = configure h g.
Proof.
  intros Hdep Hbase Hvenv. apply configure_environ_ext; try assumption.
  unfold deprecated_request, getenv, with_environ. cbn [environ].
  rewrite Hdep. reflexivity.
Qed.

Lemma configure_reads_three_variables_witness :
  configure (with_environ (<["HOME" := "/home/user"]> (environ demo_host))
                          demo_host) initial
  = configure demo_host initial.
Proof.
  apply configure_reads_three_variables; vm_compute; reflexivity.
Defined.

(** X7. Only the value NONRANDOM_REQUESTED of
    DEMO_UUID_REQUESTING_NONRANDOM counts: with any other value,
    [configure()] does what it does without the variable. *)
Theorem configure_ignores_other_values (h : Host) (v : string) (g : Globals) :
  v <> "NONRANDOM_REQUESTED" ->
  configure
    (with_environ (<["DEMO_UUID_REQUESTING_NONRANDOM" := v]> (environ h)) h) g
  = configure
      (with_environ (delete "DEMO_UUID_REQUESTING_NONRANDOM" (environ h)) h) g.
Proof.
  intros Hv.
  set (h' := with_environ
               (delete "DEMO_UUID_REQUESTING_NONRANDOM" (environ h)) h).
  change (with_environ (<["DEMO_UUID_REQUESTING_NONRANDOM" := v]> (environ h)) h)
    with (with_environ (<["DEMO_UUID_REQUESTING_NONRANDOM" := v]> (environ h)) h').
  apply configure_environ_ext.
  - unfold deprecated_request, getenv, h', with_environ. cbn [environ].
    rewrite lookup_insert_eq, lookup_delete_eq. split; congruence.
  - unfold h', with_environ. cbn [environ].
    rewrite lookup_insert_ne, lookup_delete_ne by discriminate. reflexivity.
  - unfold h', with_environ. cbn [environ].
    rewrite lookup_insert_ne, lookup_delete_ne by discriminate. reflexivity.
Qed.

Lemma configure_ignores_other_values_witness :
  configure busy_host initial
  = mkOutcome (Return tt)
      (mkGlobals (Some "example.org/sub//usr/bin/tool/run") 0) [].
Proof.
  assert (He : busy_host
               = with_environ (<["DEMO_UUID_REQUESTING_NONRANDOM" := "yes"]>
                                 (environ busy_host)) busy_host)
    by (vm_compute; reflexivity).
  rewrite He.
  rewrite (configure_ignores_other_values busy_host "yes" initial)
    by discriminate.
  vm_compute. reflexivity.
Defined.

(** X8. [local_uuid()] and [_demo_uuid()] look at whether
    CASE_DEMO_NONRANDOM_UUID_BASE is in the environment, not at what it
    says: on two hosts that both have it, or both lack it, a call does
    the same, even if the value is empty or has changed since
    [configure()]. *)
Theorem local_uuid_presence_only (h h' : Host) (rnd : Z) (g : Globals) :
  (armed h <-> armed h') ->
  local_uuid h rnd g = local_uuid h' rnd g
  /\ _demo_uuid h g = _demo_uuid h' g.
Proof.
  intros Hiff.
  assert (Hd : _demo_uuid h g = _demo_uuid h' g).
  { destruct (getenv h BASE_VARIABLE) as [d|] eqn:Hd.
    - assert (Ha : armed h) by (unfold armed; rewrite Hd; eauto).
      pose proof (proj1 Hiff Ha) as Ha'.
      destruct g as [[base|] c].
      + rewrite !demo_uuid_armed by assumption. reflexivity.
      + rewrite !demo_uuid_no_base by (assumption || reflexivity).
        reflexivity.
    - assert (Hd' : getenv h' BASE_VARIABLE = None).
      { destruct (getenv h' BASE_VARIABLE) as [d'|] eqn:Hd'; [|reflexivity].
        assert (Ha' : armed h') by (unfold armed; rewrite Hd'; eauto).
        apply Hiff in Ha'. destruct Ha' as [d Ha]. congruence. }
      rewrite !demo_uuid_no_variable by assumption. reflexivity. }
  split; [|exact Hd].
  destruct g as [[base|] c].
  - rewrite !local_uuid_set. exact Hd.
  - rewrite !local_uuid_unset. reflexivity.
Qed.

Lemma local_uuid_presence_only_witness :
  local_uuid empty_value_host 0
             (mkGlobals (Some "example.org/sub//usr/bin/tool/run") 0)
  = mkOutcome (Return "bbddb578-f85b-507d-aba9-f5c1c818c3b2")
      (mkGlobals (Some "example.org/sub//usr/bin/tool/run") 1) [].
Proof.
  assert (Ha : armed demo_host) by (eexists; vm_compute; reflexivity).
  assert (Ha' : armed empty_value_host) by (eexists; vm_compute; reflexivity).
  rewrite (proj1 (local_uuid_presence_only empty_value_host demo_host 0
                    (mkGlobals (Some "example.org/sub//usr/bin/tool/run") 0)
                    (conj (fun _ => Ha) (fun _ => Ha')))).
  vm_compute. reflexivity.
Defined.

(** X9. [configure()] never disarms: a DEMO_UUID_BASE that is set stays
    set through any call, and when the call finds no base variable the
    old base string is kept as it is, so that [local_uuid()] on that host
    goes on to raise the ValueError of [_demo_uuid()] instead of turning
    random. *)
Theorem configure_never_disarms (h : Host) (g : Globals) (base : string) :
  DEMO_UUID_BASE g = Some base ->
  is_Some (DEMO_UUID_BASE (globals (configure h g)))
  /\ (getenv h BASE_VARIABLE = None ->
        globals (configure h g) = g
        /\ forall rnd,
            local_uuid h rnd (globals (configure h g))
            = mkOutcome
                (Raise (ValueError
                   "demo_uuid() called without CASE_DEMO_NONRANDOM_UUID_BASE in environment."))
                g []).
Proof.
  intros Hb. split.
  - destruct (configure_shape h) as (v & b & ws & _ & Hc). rewrite Hc.
    cbn [globals DEMO_UUID_BASE]. destruct b; [eauto|]. rewrite Hb. eauto.
  - intros Hd. rewrite configure_disarmed_frames by (left; exact Hd).
    split; [reflexivity|]. intros rnd.
    destruct g as [b c]. cbn in Hb. subst b.
    rewrite local_uuid_set. apply demo_uuid_no_variable, Hd.
Qed.

Lemma configure_never_disarms_witness :
  local_uuid bare_host 0
    (globals (configure bare_host
                (mkGlobals (Some "example.org/sub//usr/bin/tool/run") 2)))
  = mkOutcome
      (Raise (ValueError
         "demo_uuid() called without CASE_DEMO_NONRANDOM_UUID_BASE in environment."))
      (mkGlobals (Some "example.org/sub//usr/bin/tool/run") 2) [].
Proof.
  refine (proj2 (proj2 (configure_never_disarms bare_host
            (mkGlobals (Some "example.org/sub//usr/bin/tool/run") 2)
            "example.org/sub//usr/bin/tool/run" eq_refl) _) 0).
  vm_compute. reflexivity.
Defined.

(** ** What configure() stores, warns and raises *)

(** X10. Whatever [configure()] stores in DEMO_UUID_BASE begins with
    [example.org/]: a call either leaves the globals as they are or stores
    such a string, and touches the counter in neither case. *)
Theorem configure_stores_example_org (h : Host) (g : Globals) :
  globals (configure h g) = g
  \/ exists rest,
       globals (configure h g)
       = mkGlobals (Some ("example.org/" +:+ rest)) (DEMO_UUID_COUNTER g).
Proof.
  destruct (decide (deprecated_request h)) as [Hdep|Hdep].
  { left. rewrite configure_deprecated by exact Hdep. reflexivity. }
  destruct (getenv h BASE_VARIABLE) as [d|] eqn:Hd.
  2:{ left. rewrite configure_absent by assumption. reflexivity. }
  destruct (path_exists h d) eqn:He.
  2:{ left. erewrite configure_not_existing by eassumption. reflexivity. }
  destruct (path_is_dir h d) eqn:Hi.
  2:{ left. erewrite configure_not_directory by eassumption. reflexivity. }
  destruct (argv h) as [|command args] eqn:Hargv.
  - left. erewrite configure_no_argv by eassumption. reflexivity.
  - right. erewrite configure_stores by eassumption. cbn [globals].
    unfold Spec.base_string. rewrite join_cons. eexists. reflexivity.
Qed.

(** X11. A warning from [configure()] means it declined: it has then
    issued that one warning only, returned normally, and left the globals
    as they were. *)
Theorem configure_warning_declines (h : Host) (g : Globals) (w : Warning) :
  w ∈ warned (configure h g) ->
  configure h g = mkOutcome (Return tt) g [w]
  /\ (warn_category w = FutureWarning <-> deprecated_request h).
Proof.
  destruct (decide (deprecated_request h)) as [Hdep|Hdep].
  { rewrite configure_deprecated by exact Hdep.
    intros ->%list_elem_of_singleton. split; [reflexivity|]. tauto. }
  destruct (getenv h BASE_VARIABLE) as [d|] eqn:Hd.
  2:{ rewrite configure_absent by assumption. intros []%elem_of_nil. }
  destruct (path_exists h d) eqn:He.
  2:{ erewrite configure_not_existing by eassumption.
      intros ->%list_elem_of_singleton. split; [reflexivity|].
      cbn. split; [discriminate|tauto]. }
  destruct (path_is_dir h d) eqn:Hi.
  2:{ erewrite configure_not_directory by eassumption.
      intros ->%list_elem_of_singleton. split; [reflexivity|].
      cbn. split; [discriminate|tauto]. }
  destruct (argv h) as [|command args] eqn:Hargv.
  - erewrite configure_no_argv by eassumption. intros []%elem_of_nil.
  - erewrite configure_stores by eassumption. intros []%elem_of_nil.
Qed.

Lemma configure_warning_declines_witness :
  configure missing_dir_host initial
  = mkOutcome (Return tt) initial [Warn RuntimeWarning not_existing_message].
Proof.
  refine (proj1 (configure_warning_declines missing_dir_host initial
                   (Warn RuntimeWarning not_existing_message) _)).
  vm_compute. apply list_elem_of_singleton. reflexivity.
Defined.



(** ** The working-directory component at its edges *)

Lemma is_ancestor_refl (p : Pathlib.ResolvedPath) : Spec.is_ancestor p p = true.
Proof. unfold Spec.is_ancestor. apply bool_decide_eq_true_2. reflexivity. Qed.

(** X13. Run from the base directory itself, [configure()] puts ["."]
    for the working directory; run from a directory the base directory is
    no ancestor of, it puts the absolute path, so that the base string
    begins [example.org//]. *)
Theorem configure_working_directory_edges
    (h : Host) (g : Globals) (d command : string) (args : list string) :
  ~ deprecated_request h ->
  names_directory h d ->
  argv h = command :: args ->
  (path_resolve h (getcwd h) = path_resolve h d ->
     DEMO_UUID_BASE (globals (configure h g))
     = Some (join "/" ("example.org" :: "."
                       :: Spec.command_component h command :: args)))
  /\ (Spec.is_ancestor (path_resolve h d) (path_resolve h (getcwd h)) = false ->
        exists rest,
          DEMO_UUID_BASE (globals (configure h g))
          = Some ("example.org//" +:+ rest)).
Proof.
  intros Hdep (Hd & He & Hi) Hargv.
  erewrite configure_stores by eassumption. cbn [globals DEMO_UUID_BASE].
  unfold Spec.base_string, Spec.working_directory_component,
    Spec.relative_if_below.
  split.
  - intros ->. rewrite is_ancestor_refl, drop_all. reflexivity.
  - intros ->. unfold Pathlib.str_absolute.
    rewrite !join_cons, string_app_assoc. eexists. reflexivity.
Qed.

Lemma configure_working_directory_edges_witness :
  DEMO_UUID_BASE (globals (configure top_host initial))
  = Some "example.org/.//usr/bin/tool/run"
  /\ DEMO_UUID_BASE (globals (configure outside_host initial))
     = Some "example.org//usr//usr/bin/tool/run".
Proof.
  split.
  - rewrite (proj1 (configure_working_directory_edges top_host initial
                      "/tmp/work" "/usr/bin/tool" ["run"]
                      ltac:(unfold deprecated_request; vm_compute; discriminate)
                      ltac:(repeat split; vm_compute; reflexivity)
                      eq_refl))
      by (vm_compute; reflexivity).
    vm_compute. reflexivity.
  - vm_compute. reflexivity.
Defined.

(** ** What the hashed name determines *)

Lemma has_char_app (a : ascii) (s t : string) :
  has_char a (s +:+ t) = has_char a s || has_char a t.
Proof.
  induction s as [|b s IH]; [reflexivity|].
  change (String b s +:+ t) with (String b (s +:+ t)).
  cbn [has_char]. rewrite IH, orb_assoc. reflexivity.
Qed.

Lemma pretty_N_go_no_slash (x : N) (s : string) :
  has_char "/" s = false -> has_char "/" (pretty_N_go x s) = false.
Proof.
  revert s. induction (N.lt_wf_0 x) as [x _ IH]; intros s Hs.
  destruct (decide (x = 0)%N) as [->|Hx].
  - rewrite pretty_N_go_0. exact Hs.
  - rewrite pretty_N_go_step by lia. apply IH.
    + apply N.div_lt; lia.
    + cbn [has_char]. rewrite Hs, orb_false_r.
      unfold pretty_N_char. repeat case_match; reflexivity.
Qed.

Lemma str_int_no_slash (n : Z) : has_char "/" (str_int n) = false.
Proof.
  unfold str_int, pretty, pretty_Z.
  destruct n as [|p|p]; [reflexivity| |].
  - unfold pretty, pretty_positive, pretty, pretty_N.
    case_decide; [reflexivity|]. apply pretty_N_go_no_slash. reflexivity.
  - rewrite has_char_app. cbn [has_char Ascii.eqb Bool.eqb orb].
    unfold pretty, pretty_positive, pretty, pretty_N.
    case_decide; [reflexivity|]. apply pretty_N_go_no_slash. reflexivity.
Qed.

Lemma string_app_nil_l (s : string) : "" +:+ s = s.
Proof. reflexivity. Qed.

Lemma string_app_cons (a : ascii) (s t : string) :
  String a s +:+ t = String a (s +:+ t).
Proof. reflexivity. Qed.

Lemma split_at_last_slash (b b' s s' : string) :
  has_char "/" s = false -> has_char "/" s' = false ->
  b +:+ "/" +:+ s = b' +:+ "/" +:+ s' ->
  b = b' /\ s = s'.
Proof.
  intros Hs Hs'. revert b'.
  induction b as [|a b IH]; intros [|a' b'] Heq;
    rewrite ?string_app_cons, ?string_app_nil_l in Heq.
  - injection Heq as ->. auto.
  - exfalso. injection Heq as _ Heq. rewrite Heq in Hs.
    rewrite has_char_app in Hs. cbn in Hs.
    rewrite orb_true_r in Hs. discriminate.
  - exfalso. injection Heq as _ Heq. rewrite <- Heq in Hs'.
    rewrite has_char_app in Hs'. cbn in Hs'.
    rewrite orb_true_r in Hs'. discriminate.
  - injection Heq as -> Heq. apply IH in Heq as [-> ->]. auto.
Qed.

(** X14. The name [_demo_uuid()] hashes determines both the base string
    and the counter: two calls hash the same name only with the same
    DEMO_UUID_BASE and the same counter value, so runs configured with
    different base strings never hash a name in common. *)
Theorem demo_name_determines (base base' : string) (c c' : Z) :
  join "/" [base; str_int c] = join "/" [base'; str_int c']
  <-> base = base' /\ c = c'.
Proof.
  split.
  - intros Heq. change (demo_name base c = demo_name base' c') in Heq.
    unfold demo_name in Heq.
    apply split_at_last_slash in Heq as [-> Heq];
      try apply str_int_no_slash.
    split; [reflexivity|]. apply pretty_Z_inj, Heq.
  - intros [-> ->]. reflexivity.
Qed.

Lemma demo_name_determines_witness :
  join "/" ["example.org/1"; str_int 2] <> join "/" ["example.org"; str_int 12].
Proof.
  intros Heq.
  apply (proj1 (demo_name_determines "example.org/1" "example.org" 2 12))
    in Heq.
  destruct Heq as [Heq _]. discriminate Heq.
Defined.

(** ** Where the base string is ambiguous *)

Lemma join_cons_nonempty (sep p : string) (rest : list string) :
  rest <> [] -> join sep (p :: rest) = p +:+ sep +:+ join sep rest.
Proof. destruct rest; [congruence|reflexivity]. Qed.

Lemma join_merge (sep a b : string) (pre ys : list string) :
  join sep (pre ++ (a +:+ sep +:+ b) :: ys) = join sep (pre ++ a :: b :: ys).
Proof.
  induction pre as [|p pre IH].
  - cbn [app]. rewrite (join_cons sep a b ys).
    destruct ys as [|y ys]; [reflexivity|].
    rewrite !join_cons, !string_app_assoc. reflexivity.
  - cbn [app].
    rewrite !join_cons_nonempty by (destruct pre; discriminate).
    rewrite IH. reflexivity.
Qed.

(** X15. The base string does not keep the arguments apart: a command
    line with the one argument [a/b] and the command line with the two
    arguments [a] and [b] in its place make [configure()] store the same
    base string (and do the same otherwise), so both runs produce the
    same identifiers. *)
Theorem configure_merges_arguments
    (h : Host) (g : Globals) (command a b : string) (xs ys : list string) :
  configure (with_argv (command :: xs ++ (a +:+ "/" +:+ b) :: ys) h) g
  = configure (with_argv (command :: xs ++ a :: b :: ys) h) g.
Proof.
  set (h1 := with_argv (command :: xs ++ (a +:+ "/" +:+ b) :: ys) h).
  set (h2 := with_argv (command :: xs ++ a :: b :: ys) h).
  destruct (decide (deprecated_request h)) as [Hdep|Hdep].
  { rewrite (configure_deprecated h1), (configure_deprecated h2)
      by exact Hdep. reflexivity. }
  destruct (getenv h BASE_VARIABLE) as [d|] eqn:Hd.
  2:{ rewrite (configure_absent h1), (configure_absent h2)
        by assumption. reflexivity. }
  destruct (path_exists h d) eqn:He.
  2:{ rewrite (configure_not_existing h1 g d), (configure_not_existing h2 g d)
        by assumption. reflexivity. }
  destruct (path_is_dir h d) eqn:Hi.
  2:{ rewrite (configure_not_directory h1 g d),
        (configure_not_directory h2 g d) by assumption. reflexivity. }
  rewrite (configure_stores h1 g d command (xs ++ (a +:+ "/" +:+ b) :: ys)),
    (configure_stores h2 g d command (xs ++ a :: b :: ys))
    by (assumption || reflexivity).
  do 3 f_equal. unfold Spec.base_string.
  change (Spec.working_directory_component h1 d)
    with (Spec.working_directory_component h2 d).
  change (Spec.command_component h1 command)
    with (Spec.command_component h2 command).
  apply (join_merge "/" a b
           ("example.org" :: Spec.working_directory_component h2 d
            :: Spec.command_component h2 command :: xs) ys).
Qed.

Example configure_merges_arguments_demo :
  DEMO_UUID_BASE
    (globals (configure (with_argv ["/usr/bin/tool"; "a/b"] demo_host) initial))
  = Some "example.org/sub//usr/bin/tool/a/b"
  /\ DEMO_UUID_BASE
       (globals (configure (with_argv ["/usr/bin/tool"; "a"; "b"] demo_host)
                           initial))
     = Some "example.org/sub//usr/bin/tool/a/b".
Proof. vm_compute. split; reflexivity. Qed.

(** ** The variant *)

Lemma UUID_version_variant_bits (n v : Z) :
  Z.testbit (uuid_int (UUID_version n v)) 63 = true
  /\ Z.testbit (uuid_int (UUID_version n v)) 62 = false.
Proof.
  unfold UUID_version. cbn [uuid_int].
  rewrite !Z.lor_spec, !Z.land_spec, !Z.lor_spec, !Z.land_spec.
  rewrite !Z.shiftl_spec by lia.
  rewrite (Z.testbit_neg_r v (63 - 76)), (Z.testbit_neg_r v (62 - 76)) by lia.
  change (Z.testbit 0x8000 (63 - 48)) with true.
  change (Z.testbit 0x8000 (62 - 48)) with false.
  change (Z.testbit (Z.lnot (Z.shiftl 0xc000 48)) 62) with false.
  change (Z.testbit (Z.lnot (Z.shiftl 0xf000 64)) 63) with true.
  change (Z.testbit (Z.lnot (Z.shiftl 0xf000 64)) 62) with true.
  split.
  - rewrite orb_true_r. reflexivity.
  - rewrite andb_false_r. reflexivity.
Qed.

Lemma variant_nibble (n v : Z) :
  8 <= Z.land (Z.shiftr (uuid_int (UUID_version n v)) 60) 0xf < 12.
Proof.
  destruct (UUID_version_variant_bits n v) as [H63 H62].
  set (x := uuid_int (UUID_version n v)) in *.
  pose proof (nibble_range x 60) as Hr.
  set (m := Z.land (Z.shiftr x 60) 0xf) in *.
  assert (H3 : Z.testbit m 3 = true).
  { unfold m. rewrite Z.land_spec, Z.shiftr_spec by lia.
    change (3 + 60) with 63. rewrite H63. reflexivity. }
  assert (H2 : Z.testbit m 2 = false).
  { unfold m. rewrite Z.land_spec, Z.shiftr_spec by lia.
    change (2 + 60) with 62. rewrite H62. reflexivity. }
  apply Z.testbit_true in H3; [|lia]. apply Z.testbit_false in H2; [|lia].
  change (2 ^ 3) with 8 in H3. change (2 ^ 2) with 4 in H2.
  Z.div_mod_to_equations. lia.
Qed.

Lemma get_19_str_UUID (u : UUID) :
  String.get 19 (str_UUID u)
  = Some (hexdigit (Z.land (Z.shiftr (uuid_int u) 60) 0xf)).
Proof.
  unfold str_UUID. cbn [hex].
  cbv [String.substring String.app String.append].
  reflexivity.
Qed.

(** X16. Every identifier [local_uuid()] returns has the RFC 4122 variant:
    its twentieth character is one of [8], [9], [a], [b]. *)
Theorem local_uuid_variant_digit
    (h : Host) (rnd : Z) (g : Globals) (s : string) :
  value (local_uuid h rnd g) = Return s ->
  exists a : ascii,
    String.get 19 s = Some a /\ a ∈ ["8"; "9"; "a"; "b"]%char.
Proof.
  intros Hs.
  assert (Hu : exists n v, s = str_UUID (UUID_version n v)).
  { apply local_uuid_returns in Hs as [[_ ->]|(base & _ & _ & ->)];
      unfold uuid4, uuid5; eauto. }
  destruct Hu as (n & v & ->). rewrite get_19_str_UUID.
  eexists; split; [reflexivity|].
  pose proof (variant_nibble n v) as Hm.
  set (m := Z.land (Z.shiftr (uuid_int (UUID_version n v)) 60) 0xf) in *.
  assert (Hcases : m = 8 \/ m = 9 \/ m = 10 \/ m = 11) by lia.
  clearbody m.
  destruct Hcases as [H | [H | [H | H]]]; rewrite H; vm_compute;
    repeat constructor.
Qed.

Lemma local_uuid_variant_digit_witness :
  exists a : ascii,
    String.get 19 "bbddb578-f85b-507d-aba9-f5c1c818c3b2" = Some a
    /\ a ∈ ["8"; "9"; "a"; "b"]%char.
Proof.
  apply (local_uuid_variant_digit demo_host 0
           (mkGlobals (Some "example.org/sub//usr/bin/tool/run") 0)).
  vm_compute. reflexivity.
Defined.

(** ** Spellings that do not matter *)

(** X17. With VIRTUAL_ENV set, the command enters the base string
    through its resolved path only: two ways of invoking the program that
    resolve to the same file make [configure()] do the same. *)
Theorem configure_command_by_resolution
    (h : Host) (g : Globals) (venv command command' : string)
    (args : list string) :
  getenv h "VIRTUAL_ENV" = Some venv ->
  path_resolve h command = path_resolve h command' ->
  configure (with_argv (command :: args) h) g
  = configure (with_argv (command' :: args) h) g.
Proof.
  intros Hvenv Hres.
  set (h1 := with_argv (command :: args) h).
  set (h2 := with_argv (command' :: args) h).
  destruct (decide (deprecated_request h)) as [Hdep|Hdep].
  { rewrite (configure_deprecated h1), (configure_deprecated h2)
      by exact Hdep. reflexivity. }
  destruct (getenv h BASE_VARIABLE) as [d|] eqn:Hd.
  2:{ rewrite (configure_absent h1), (configure_absent h2)
        by assumption. reflexivity. }
  destruct (path_exists h d) eqn:He.
  2:{ rewrite (configure_not_existing h1 g d), (configure_not_existing h2 g d)
        by assumption. reflexivity. }
  destruct (path_is_dir h d) eqn:Hi.
  2:{ rewrite (configure_not_directory h1 g d),
        (configure_not_directory h2 g d) by assumption. reflexivity. }
  rewrite (configure_stores h1 g d command args),
    (configure_stores h2 g d command' args) by (assumption || reflexivity).
  do 3 f_equal. unfold Spec.base_string, Spec.command_component.
  change (getenv h1 "VIRTUAL_ENV") with (getenv h "VIRTUAL_ENV").
  change (getenv h2 "VIRTUAL_ENV") with (getenv h "VIRTUAL_ENV").
  rewrite Hvenv.
  change (path_resolve h1) with (path_resolve h).
  change (path_resolve h2) with (path_resolve h).
  rewrite Hres. reflexivity.
Qed.

Lemma configure_command_by_resolution_witness :
  configure (with_argv ["bin/../bin/tool"; "run"] dotted_host) initial
  = mkOutcome (Return tt)
      (mkGlobals (Some "example.org/sub/bin/tool/run") 0) [].
Proof.
  rewrite (configure_command_by_resolution dotted_host initial "/usr"
             "bin/../bin/tool" "/usr/bin/tool" ["run"]);
    vm_compute; reflexivity.
Defined.

(** X18. The value of CASE_DEMO_NONRANDOM_UUID_BASE enters through what
    the file system says of it: two values that both exist or not, both
    are directories or not, and resolve to the same path, make
    [configure()] do the same. *)
Theorem configure_base_by_resolution
    (h : Host) (g : Globals) (d d' : string) :
  path_exists h d = path_exists h d' ->
  path_is_dir h d = path_is_dir h d' ->
  path_resolve h d = path_resolve h d' ->
  configure (with_environ (<[BASE_VARIABLE := d]> (environ h)) h) g
  = configure (with_environ (<[BASE_VARIABLE := d']> (environ h)) h) g.
Proof.
  intros He Hi Hres. unfold configure, srcdir_part, command_part, argv_0,
    getenv, with_environ.
  cbn [environ getcwd argv path_exists path_is_dir path_resolve].
  fold BASE_VARIABLE.
  rewrite !(lookup_insert_ne (environ h) BASE_VARIABLE
              "DEMO_UUID_REQUESTING_NONRANDOM") by discriminate.
  rewrite !(lookup_insert_ne (environ h) BASE_VARIABLE "VIRTUAL_ENV")
    by discriminate.
  rewrite !lookup_insert_eq, He, Hi, Hres. reflexivity.
Qed.

Lemma configure_base_by_resolution_witness :
  configure
    (with_environ (<[BASE_VARIABLE := "/tmp/work/"]> (environ slash_host))
                  slash_host)
    initial
  = mkOutcome (Return tt)
      (mkGlobals (Some "example.org/sub//usr/bin/tool/run") 0) [].
Proof.
  rewrite (configure_base_by_resolution slash_host initial
             "/tmp/work/" "/tmp/work");
    vm_compute; reflexivity.
Defined.
